(** * GusdPointsWrapper: the Houdini GT <-> UsdGeomPoints adapter

    A shallow embedding of [third_party/houdini/lib/gusd/pointsWrapper.cpp].

    The adapter sits between two object models that it does not own.  The
    parts of them that the adapter touches are embedded as follows.

    - [fpreal32] values are IEEE binary32 numbers, taken from the standard
      library's [spec_float] with precision 24 and maximal exponent 128;
      the [double] literal [.5] of the read path lives in binary64.
    - A [VtArray] is a list; a [GT_AttributeList] is an ordered association
      list from attribute names to data arrays; a prim or an attribute
      handle is a record of what its queries answer.
    - Calls that act outside the adapter (diagnostics, fetching attribute
      values, the inherited [GusdPrimWrapper] helpers that write to the
      stage, the refiner) are recorded in a trace, in program order, by a
      small writer monad.  Values that such calls hand back to the adapter
      are section variables.
    - Scoped locks are acquired and released around the reads; they do not
      influence any value computed here and are not represented. *)

From Stdlib Require Import ZArith QArith Qpower Ascii String Floats.SpecFloat.
From stdpp Require Import base list strings.

Local Open Scope string_scope.
Local Open Scope list_scope.
Local Open Scope Z_scope.
Local Open Scope nat_scope.

(** ** Single precision arithmetic *)

Module F32.

Definition prec : Z := 24.
Definition emax : Z := 128.

Definition prec_double : Z := 53.
Definition emax_double : Z := 1024.

(** Conversion of a floating-point value to the format [(p, e)], rounding
    to nearest even.  Zeros, infinities and NaN are kept. *)
Definition convert (p e : Z) (x : spec_float) : spec_float :=
  match x with
  | S754_finite s m ex => binary_round p e s m ex
  | _ => x
  end.

(** The literals of the source: [.5] is a [double]; [2.0] is narrowed to
    [fpreal32] when it is bound as the first argument of
    [std::multiplies<fpreal32>]. *)
Definition half_double : spec_float := binary_round prec_double emax_double false 1 (-1).
Definition two : spec_float := binary_round prec emax false 1 1.

(** [x * .5] with [x : float]: the operand is promoted to [double], the
    product is taken in [double] and the result is narrowed on the store
    into the [fpreal32] buffer. *)
Definition mul_half (x : spec_float) : spec_float :=
  convert prec emax
    (SFmul prec_double emax_double (convert prec_double emax_double x) half_double).

(** [std::multiplies<fpreal32>()(2.0, x)] *)
Definition mul_two (x : spec_float) : spec_float := SFmul prec emax two x.

(** The mantissa [m] followed by [k] zero bits. *)
Fixpoint shl (m : positive) (k : nat) : positive :=
  match k with
  | O => m
  | S k' => xO (shl m k')
  end.

(** The state of the rounding shifter after [k] right shifts of the
    mantissa [m], started without round and sticky bits. *)
Definition shifted (k : Z) (m : positive) : shr_record :=
  match k with
  | Zpos p => SpecFloat.iter_pos shr_1 p (Build_shr_record (Zpos m) false false)
  | _ => Build_shr_record (Zpos m) false false
  end.

Definition one : spec_float := binary_round prec emax false 1 0.
Definition half : spec_float := binary_round prec emax false 1 (-1).
Definition min_subnormal : spec_float := S754_finite false 1 (-149).

End F32.

Definition fpreal32 : Type := spec_float.

(** ** Calls that leave the translation unit: a writer monad *)

Definition Traced (E A : Type) : Type := A * list E.

Definition ret {E A} (a : A) : Traced E A := (a, []).

Definition bind {E A B} (m : Traced E A) (k : A -> Traced E B) : Traced E B :=
  let '(a, t1) := m in
  let '(b, t2) := k a in
  (b, t1 ++ t2).

Definition emit {E} (e : E) : Traced E unit := (tt, [e]).

Definition result {E A} (m : Traced E A) : A := fst m.
Definition trace {E A} (m : Traced E A) : list E := snd m.

Notation "'do' x <- m ; k" := (bind m (fun x => k))
  (at level 10, x pattern, m at level 100, k at level 200, only parsing).
Notation "'run' m ; k" := (bind m (fun _ => k))
  (at level 10, m at level 100, k at level 200, only parsing).

(** ** The scene-description side *)

Definition TfToken : Type := string.
Definition SdfPath : Type := string.

Inductive UsdTimeCode : Type :=
| TimeDefault
| TimeSample (frame : Z).

Definition GfVec3f : Type := fpreal32 * fpreal32 * fpreal32.
Definition VtArray (T : Type) : Type := list T.

(** The value an attribute holds at a time code. *)
Inductive VtValue : Type :=
| VtVec3fArray (a : VtArray GfVec3f)
| VtFloatArray (a : VtArray fpreal32)
| VtIntArray (a : VtArray Z)
| VtToken (t : TfToken).

(** An attribute handle: [attr_valid] is its conversion to [bool],
    [attr_value t] is what the stage resolves for it at time [t]. *)
Record UsdAttribute : Type := {
  attr_valid : bool;
  HasAuthoredValueOpinion : bool;
  attr_value : UsdTimeCode -> option VtValue
}.

Definition invalid_attribute : UsdAttribute :=
  {| attr_valid := false; HasAuthoredValueOpinion := false; attr_value := fun _ => None |}.

Record UsdPrim : Type := {
  prim_valid : bool;
  GetPath : SdfPath;
  prim_attribute : TfToken -> UsdAttribute
}.

(** An attribute requested from an invalid prim is an invalid attribute. *)
Definition GetAttribute (p : UsdPrim) (name : TfToken) : UsdAttribute :=
  if prim_valid p then prim_attribute p name else invalid_attribute.

(** The typed schema object is a view of a prim. *)
Record UsdGeomPoints : Type := { GetPrim : UsdPrim }.

Definition schema_valid (g : UsdGeomPoints) : bool := prim_valid (GetPrim g).

Module UsdGeomTokens.
Definition points : TfToken := "points".
Definition normals : TfToken := "normals".
Definition velocities : TfToken := "velocities".
Definition widths : TfToken := "widths".
Definition extent : TfToken := "extent".
Definition purpose : TfToken := "purpose".
Definition default_ : TfToken := "default".
Definition vertex : TfToken := "vertex".
Definition constant : TfToken := "constant".
End UsdGeomTokens.

Definition GetPointsAttr (g : UsdGeomPoints) := GetAttribute (GetPrim g) UsdGeomTokens.points.
Definition GetNormalsAttr (g : UsdGeomPoints) := GetAttribute (GetPrim g) UsdGeomTokens.normals.
Definition GetVelocitiesAttr (g : UsdGeomPoints) := GetAttribute (GetPrim g) UsdGeomTokens.velocities.
Definition GetWidthsAttr (g : UsdGeomPoints) := GetAttribute (GetPrim g) UsdGeomTokens.widths.

(** [attr.Get(&out, time)] for the two array types the adapter reads.  When
    the stage has no value of the requested type, [Get] fails and the
    caller's buffer keeps its previous contents. *)
Definition Get_Vec3fArray (a : UsdAttribute) (out : VtArray GfVec3f) (t : UsdTimeCode)
  : VtArray GfVec3f :=
  match attr_value a t with
  | Some (VtVec3fArray v) => v
  | _ => out
  end.

Definition Get_FloatArray (a : UsdAttribute) (out : VtArray fpreal32) (t : UsdTimeCode)
  : VtArray fpreal32 :=
  match attr_value a t with
  | Some (VtFloatArray v) => v
  | _ => out
  end.

(** ** The host side *)

Inductive GT_Type : Type :=
| GT_TYPE_NONE
| GT_TYPE_POINT
| GT_TYPE_NORMAL
| GT_TYPE_VECTOR.

Inductive GT_Owner : Type :=
| GT_OWNER_VERTEX
| GT_OWNER_POINT
| GT_OWNER_UNIFORM
| GT_OWNER_CONSTANT
| GT_OWNER_INVALID.

#[global] Instance GT_Owner_eq_dec : EqDecision GT_Owner.
Proof. solve_decision. Defined.

(** The two kinds of numeric data array that the adapter builds. *)
Inductive GT_DataArray : Type :=
| GusdGT_VtArray (a : VtArray GfVec3f) (type : GT_Type)
| GT_Real32Array (data : list fpreal32) (tuple_size : nat).

Definition flat_data (a : GT_DataArray) : list fpreal32 :=
  match a with
  | GusdGT_VtArray a _ => flat_map (fun '(x, y, z) => [x; y; z]) a
  | GT_Real32Array d _ => d
  end.

Definition getTupleSize (a : GT_DataArray) : nat :=
  match a with
  | GusdGT_VtArray _ _ => 3
  | GT_Real32Array _ ts => ts
  end.

Definition entries (a : GT_DataArray) : nat :=
  match a with
  | GusdGT_VtArray a _ => length a
  | GT_Real32Array d ts => length d `div` ts
  end.

(** [a->fillArray(buf, start, len, tsize)] into an [fpreal32] buffer: the
    first [tsize] components of the entries [start .. start + len - 1]. *)
Definition fillArray (a : GT_DataArray) (start len tsize : nat) : list fpreal32 :=
  flat_map (fun i => take tsize (drop (i * getTupleSize a) (flat_data a))) (seq start len).

Definition GT_AttributeList : Type := list (string * GT_DataArray).

(** [new GT_AttributeList(new GT_AttributeMap())] *)
Definition GT_AttributeList_new : GT_AttributeList := [].

Fixpoint get (l : GT_AttributeList) (name : string) : option GT_DataArray :=
  match l with
  | [] => None
  | (n, d) :: l' => if decide (n = name) then Some d else get l' name
  end.

(** [l->addAttribute(name, data, replace_existing)] returns the new list. *)
Fixpoint addAttribute (l : GT_AttributeList) (name : string) (data : GT_DataArray)
    (replace_existing : bool) : GT_AttributeList :=
  match l with
  | [] => [(name, data)]
  | (n, d) :: l' =>
      if decide (n = name)
      then (if replace_existing then (n, data) :: l' else l)
      else (n, d) :: addAttribute l' name data replace_existing
  end.

Definition getNames (l : GT_AttributeList) : list string := l.*1.

(** A host primitive, seen through its four attribute lists; a null handle
    is [None]. *)
Record GT_Primitive : Type := {
  getVertexAttributes : option GT_AttributeList;
  getPointAttributes : option GT_AttributeList;
  getUniformAttributes : option GT_AttributeList;
  getDetailAttributes : option GT_AttributeList
}.

(** [new GT_PrimPointMesh(points, detail)] *)
Definition GT_PrimPointMesh (points detail : GT_AttributeList) : GT_Primitive :=
  {| getVertexAttributes := None;
     getPointAttributes := Some points;
     getUniformAttributes := None;
     getDetailAttributes := Some detail |}.

(** [prim->findAttribute(name, owner, 0)] searches the vertex, point,
    uniform and detail lists in that order; the owner of the list where the
    name was found is stored through the reference.  A name that is in none
    of the lists gives a null handle, paired here with [GT_OWNER_INVALID]. *)
Definition findAttribute (prim : GT_Primitive) (name : string)
  : option GT_DataArray * GT_Owner :=
  let look (l : option GT_AttributeList) := l ≫= (fun l => get l name) in
  match look (getVertexAttributes prim) with
  | Some d => (Some d, GT_OWNER_VERTEX)
  | None =>
    match look (getPointAttributes prim) with
    | Some d => (Some d, GT_OWNER_POINT)
    | None =>
      match look (getUniformAttributes prim) with
      | Some d => (Some d, GT_OWNER_UNIFORM)
      | None =>
        match look (getDetailAttributes prim) with
        | Some d => (Some d, GT_OWNER_CONSTANT)
        | None => (None, GT_OWNER_INVALID)
        end
      end
    end
  end.

(** ** The wrapper object *)

(** [base_state] stands for the members of the [GusdPrimWrapper] base class
    other than [m_time] (the caches that [clearCaches] resets). *)
Record GusdPointsWrapper (base_state : Type) : Type := {
  m_time : UsdTimeCode;
  m_base : base_state;
  m_usdPointsForWrite : UsdGeomPoints;
  m_usdPointsForRead : UsdGeomPoints
}.
Arguments m_time {base_state} _.
Arguments m_base {base_state} _.
Arguments m_usdPointsForWrite {base_state} _.
Arguments m_usdPointsForRead {base_state} _.

Definition isValid {B} (w : GusdPointsWrapper B) : bool :=
  schema_valid (m_usdPointsForWrite w) || schema_valid (m_usdPointsForRead w).

(** ** The read path *)

Inductive WarnArg : Type :=
| ArgText (s : string)
| ArgSize (n : nat).

Section ReadPath.

Context {base_state : Type}.

(** [GT_RefineParms] and [GT_GEOPrimPacked::useViewportLOD] belong to the
    host; [loadPrimvars] is inherited from [GusdPrimWrapper].  A null
    pointer argument is [None]; [loadPrimvars] hands back the four
    attribute lists in the order vertex, point, primitive, constant. *)
Context {GT_RefineParms : Type}.
Variable useViewportLOD : option GT_RefineParms -> bool.

Record PrimvarTargets : Type := {
  tgt_vertex : option GT_AttributeList;
  tgt_point : option GT_AttributeList;
  tgt_primitive : option GT_AttributeList;
  tgt_constant : option GT_AttributeList
}.

Variable loadPrimvars :
  UsdTimeCode -> option GT_RefineParms -> nat -> nat -> nat -> string ->
  PrimvarTargets -> PrimvarTargets.

Inductive ReadCall : Type :=
| TF_WARN (fmt : string) (args : list WarnArg)
| UsdGet (attr : TfToken) (time : UsdTimeCode)
| LoadPrimvars (time : UsdTimeCode) (parms : option GT_RefineParms)
    (minUniform minPoint minVertex : nat) (primPath : string) (targets : PrimvarTargets)
| AddPrimitive (prim : GT_Primitive).

Definition warn (fmt : string) (args : list WarnArg) : Traced ReadCall unit :=
  emit (TF_WARN fmt args).

Definition readVec3f (name : TfToken) (a : UsdAttribute) (out : VtArray GfVec3f)
    (t : UsdTimeCode) : Traced ReadCall (VtArray GfVec3f) :=
  run emit (UsdGet name t); ret (Get_Vec3fArray a out t).

Definition readFloat (name : TfToken) (a : UsdAttribute) (out : VtArray fpreal32)
    (t : UsdTimeCode) : Traced ReadCall (VtArray fpreal32) :=
  run emit (UsdGet name t); ret (Get_FloatArray a out t).

Definition not_enough (what : string) : string :=
  "Not enough values found for " +:+ what +:+ " in %s. Expected %zd, got %zd.".

(** The loop [for (i = 0; i < s; ++i) *d++ = vtFloatArray[i] * .5]:
    [i] is the next index, [n] the number of iterations left. *)
Fixpoint halve_into (vtFloatArray : VtArray fpreal32) (d : list fpreal32) (i n : nat)
  : list fpreal32 :=
  match n with
  | O => d
  | S n' =>
      match vtFloatArray !! i with
      | Some x => halve_into vtFloatArray (<[i := F32.mul_half x]> d) (S i) n'
      | None => d
      end
  end.

(** Lines 160-174 *)
Definition refine_normals (w : GusdPointsWrapper base_state) (points : UsdGeomPoints)
    (usdPoints vtVec3Array : VtArray GfVec3f) (gtPointAttrs : GT_AttributeList)
  : Traced ReadCall (VtArray GfVec3f * GT_AttributeList) :=
  let normalsAttr := GetNormalsAttr points in
  if attr_valid normalsAttr && HasAuthoredValueOpinion normalsAttr then
    do vtVec3Array <- readVec3f UsdGeomTokens.normals normalsAttr vtVec3Array (m_time w);
    if decide (length vtVec3Array < length usdPoints) then
      run warn (not_enough "normals")
            [ArgText (GetPath (GetPrim points));
             ArgSize (length usdPoints); ArgSize (length vtVec3Array)];
      ret (vtVec3Array, gtPointAttrs)
    else
      let gtNormals := GusdGT_VtArray vtVec3Array GT_TYPE_NORMAL in
      ret (vtVec3Array, addAttribute gtPointAttrs "N" gtNormals true)
  else ret (vtVec3Array, gtPointAttrs).

(** Lines 176-190 *)
Definition refine_velocities (w : GusdPointsWrapper base_state) (points : UsdGeomPoints)
    (usdPoints vtVec3Array : VtArray GfVec3f) (gtPointAttrs : GT_AttributeList)
  : Traced ReadCall (VtArray GfVec3f * GT_AttributeList) :=
  let velAttr := GetVelocitiesAttr points in
  if attr_valid velAttr && HasAuthoredValueOpinion velAttr then
    do vtVec3Array <- readVec3f UsdGeomTokens.velocities velAttr vtVec3Array (m_time w);
    if decide (length vtVec3Array < length usdPoints) then
      run warn (not_enough "velocities")
            [ArgText (GetPath (GetPrim points));
             ArgSize (length usdPoints); ArgSize (length vtVec3Array)];
      ret (vtVec3Array, gtPointAttrs)
    else
      let gtVel := GusdGT_VtArray vtVec3Array GT_TYPE_VECTOR in
      ret (vtVec3Array, addAttribute gtPointAttrs "v" gtVel true)
  else ret (vtVec3Array, gtPointAttrs).

(** Lines 192-210 *)
Definition refine_widths (w : GusdPointsWrapper base_state) (points : UsdGeomPoints)
    (usdPoints : VtArray GfVec3f) (vtFloatArray : VtArray fpreal32)
    (gtPointAttrs : GT_AttributeList)
  : Traced ReadCall (VtArray fpreal32 * GT_AttributeList) :=
  let widthsAttr := GetWidthsAttr points in
  if attr_valid widthsAttr && HasAuthoredValueOpinion widthsAttr then
    do vtFloatArray <- readFloat UsdGeomTokens.widths widthsAttr vtFloatArray (m_time w);
    if decide (length vtFloatArray < length usdPoints) then
      run warn (not_enough "widths")
            [ArgText (GetPath (GetPrim points));
             ArgSize (length usdPoints); ArgSize (length vtFloatArray)];
      ret (vtFloatArray, gtPointAttrs)
    else
      let s := length vtFloatArray in
      let d := halve_into vtFloatArray (replicate (s * 1) (S754_zero false)) 0 s in
      let gtWidths := GT_Real32Array d 1 in
      ret (vtFloatArray, addAttribute gtPointAttrs "pscale" gtWidths true)
  else ret (vtFloatArray, gtPointAttrs).

Definition refine (w : GusdPointsWrapper base_state) (parms : option GT_RefineParms)
  : Traced ReadCall bool :=
  if negb (isValid w) then ret false else
  let refineForViewport := useViewportLOD parms in
  let points := m_usdPointsForRead w in
  let vtFloatArray : VtArray fpreal32 := [] in
  let vtVec3Array : VtArray GfVec3f := [] in
  let gtPointAttrs := GT_AttributeList_new in
  let gtDetailAttrs := GT_AttributeList_new in
  (* point positions *)
  let pointsAttr := GetPointsAttr points in
  if negb (attr_valid pointsAttr) then
    run warn "Invalid point attribute" [];
    ret false
  else
  do usdPoints <- readVec3f UsdGeomTokens.points pointsAttr [] (m_time w);
  let gtPoints := GusdGT_VtArray usdPoints GT_TYPE_POINT in
  let gtPointAttrs := addAttribute gtPointAttrs "P" gtPoints true in
  do lists <-
    (if negb refineForViewport then
       do (vtVec3Array, gtPointAttrs) <-
          refine_normals w points usdPoints vtVec3Array gtPointAttrs;
       do (vtVec3Array, gtPointAttrs) <-
          refine_velocities w points usdPoints vtVec3Array gtPointAttrs;
       do (vtFloatArray, gtPointAttrs) <-
          refine_widths w points usdPoints vtFloatArray gtPointAttrs;
       let targets :=
         {| tgt_vertex := None; tgt_point := Some gtPointAttrs;
            tgt_primitive := None; tgt_constant := Some gtDetailAttrs |} in
       let primPath := GetPath (GetPrim points) in
       run emit (LoadPrimvars (m_time w) parms 0 (length usdPoints) 0 primPath targets);
       let loaded := loadPrimvars (m_time w) parms 0 (length usdPoints) 0 primPath targets in
       ret (default gtPointAttrs (tgt_point loaded),
            default gtDetailAttrs (tgt_constant loaded))
     else ret (gtPointAttrs, gtDetailAttrs));
  let refinedPrimHandle := GT_PrimPointMesh lists.1 lists.2 in
  run emit (AddPrimitive refinedPrimHandle);
  ret true.

(** *** Observations on a run of [refine] *)

(** The position array that [refine] reads. *)
Definition usdPoints_read (w : GusdPointsWrapper base_state) : VtArray GfVec3f :=
  Get_Vec3fArray (GetPointsAttr (m_usdPointsForRead w)) [] (m_time w).

(** The primitives handed to the refiner, in order. *)
Definition added_primitives (tr : list ReadCall) : list GT_Primitive :=
  omap (fun c => match c with AddPrimitive p => Some p | _ => None end) tr.

(** The attributes whose value was fetched from the stage, in order. *)
Definition attributes_read (tr : list ReadCall) : list TfToken :=
  omap (fun c => match c with UsdGet a _ => Some a | _ => None end) tr.

(** The point attribute lists that were passed on to [loadPrimvars]. *)
Definition lists_before_primvars (tr : list ReadCall) : list GT_AttributeList :=
  omap (fun c => match c with
                 | LoadPrimvars _ _ _ _ _ _ targets => tgt_point targets
                 | _ => None
                 end) tr.

(** The three optional blocks of a run in sequence, started from the
    point list that holds the positions only: the list they build and the
    calls they make. *)
Definition optional_blocks (w : GusdPointsWrapper base_state)
  : Traced ReadCall GT_AttributeList :=
  let g := m_usdPointsForRead w in
  let pos := usdPoints_read w in
  let P := addAttribute GT_AttributeList_new "P" (GusdGT_VtArray pos GT_TYPE_POINT) true in
  let n := refine_normals w g pos [] P in
  let v := refine_velocities w g pos (result n).1 (result n).2 in
  let s := refine_widths w g pos [] (result v).2 in
  ((result s).2, trace n ++ trace v ++ trace s).

(** The argument block of the [loadPrimvars] call of [refine]. *)
Definition primvar_targets (built : GT_AttributeList) : PrimvarTargets :=
  {| tgt_vertex := None; tgt_point := Some built;
     tgt_primitive := None; tgt_constant := Some GT_AttributeList_new |}.

(** Whether the block of an optional attribute goes on to fetch its value. *)
Definition is_authored (g : UsdGeomPoints) (name : TfToken) : bool :=
  attr_valid (GetAttribute (GetPrim g) name)
  && HasAuthoredValueOpinion (GetAttribute (GetPrim g) name).

(** The calls that fetch a value or report a diagnostic. *)
Definition read_or_warn (c : ReadCall) : Prop :=
  match c with
  | UsdGet _ _ | TF_WARN _ _ => True
  | _ => False
  end.

(** The diagnostic of an optional attribute [what] that is shorter than
    the position array. *)
Definition short_warning (w : GusdPointsWrapper base_state) (what : string) (got : nat)
  : ReadCall :=
  TF_WARN (not_enough what)
    [ArgText (GetPath (GetPrim (m_usdPointsForRead w)));
     ArgSize (length (usdPoints_read w)); ArgSize got].

End ReadPath.

Arguments ReadCall : clear implicits.
Arguments TF_WARN {GT_RefineParms} fmt args.
Arguments UsdGet {GT_RefineParms} attr time.
Arguments LoadPrimvars {GT_RefineParms} time parms minUniform minPoint minVertex primPath targets.
Arguments AddPrimitive {GT_RefineParms} prim.
Arguments added_primitives {GT_RefineParms} tr.
Arguments attributes_read {GT_RefineParms} tr.
Arguments lists_before_primvars {GT_RefineParms} tr.
Arguments optional_blocks {base_state GT_RefineParms} w.
Arguments short_warning {base_state GT_RefineParms} w what got.
Arguments read_or_warn {GT_RefineParms} c.

(** ** The attribute filter of the primvar pass-through *)

(** Modelled from the spec: the wildcard match of one pattern against an
    attribute name, which the filter class [GusdGT_AttrFilter] takes from the
    host's string library; [*] stands for any run of characters and [?] for
    any single one. *)
Fixpoint glob (p s : string) {struct p} : bool :=
  match p with
  | EmptyString => match s with EmptyString => true | String _ _ => false end
  | String "*"%char p' =>
      (fix star (s : string) : bool :=
         glob p' s || match s with EmptyString => false | String _ s' => star s' end) s
  | String "?"%char p' =>
      match s with EmptyString => false | String _ s' => glob p' s' end
  | String c p' =>
      match s with
      | EmptyString => false
      | String d s' => if Ascii.eqb c d then glob p' s' else false
      end
  end.

(** Modelled from the spec: the entry that has been read, if it is not
    empty. *)
Definition flush (cur : string) : list string :=
  match cur with EmptyString => [] | _ => [cur] end.

(** Modelled from the spec: [GusdGT_AttrFilter] keeps its patterns as one
    string of blank-separated entries; [tokens cur s] are the entries of
    [s], where [cur] is the entry being read. *)
Fixpoint tokens (cur s : string) : list string :=
  match s with
  | EmptyString => flush cur
  | String " "%char s' => flush cur ++ tokens EmptyString s'
  | String c s' => tokens (cur +:+ String c EmptyString) s'
  end.

(** Modelled from the spec: the name-exclusion filter.  The entries are
    read from left to right; an entry that matches the name includes it, an
    entry [^p] whose [p] matches the name excludes it, and the last entry
    that applies decides. *)
Definition match_token (name : string) (verdict : bool) (tok : string) : bool :=
  match tok with
  | String "^"%char p => if glob p name then false else verdict
  | p => if glob p name then true else verdict
  end.

(** Modelled from the spec: the verdict of a whole pattern string on a
    name; a name that no entry mentions is not included. *)
Definition multiMatch (name pattern : string) : bool :=
  foldl (match_token name) false (tokens EmptyString pattern).

(** Modelled from the spec: [GusdGT_AttrFilter], the filter object declared
    outside this translation unit: one pattern string per attribute owner
    and the owners that are currently active. *)
Record GusdGT_AttrFilter : Type := {
  patterns : GT_Owner -> string;
  activeOwners : list GT_Owner
}.

(** Modelled from the spec: the constructor [GusdGT_AttrFilter(pattern)]. *)
Definition GusdGT_AttrFilter_new (pattern : string) : GusdGT_AttrFilter :=
  {| patterns := fun _ => pattern; activeOwners := [] |}.

(** Modelled from the spec: [filter.appendPattern(owner, pattern)] adds the
    entries of [pattern] after those the owner already has. *)
Definition appendPattern (f : GusdGT_AttrFilter) (owner : GT_Owner) (pattern : string)
  : GusdGT_AttrFilter :=
  {| patterns := fun o =>
       if decide (o = owner) then patterns f o +:+ " " +:+ pattern else patterns f o;
     activeOwners := activeOwners f |}.

(** Modelled from the spec: [filter.setActiveOwners(owners)]. *)
Definition setActiveOwners (f : GusdGT_AttrFilter) (owners : list GT_Owner)
  : GusdGT_AttrFilter :=
  {| patterns := patterns f; activeOwners := owners |}.

(** Modelled from the spec: the pattern in force, the patterns of the
    active owners one after the other. *)
Definition currentPattern (f : GusdGT_AttrFilter) : string :=
  foldr (fun o acc => patterns f o +:+ " " +:+ acc) EmptyString (activeOwners f).

(** Modelled from the spec: [filter.matches(name)]. *)
Definition matches (f : GusdGT_AttrFilter) (name : string) : bool :=
  multiMatch name (currentPattern f).

(** Modelled from the spec: the attribute names that
    [updatePrimvarFromGTPrim(attrs, filter, interpolation, time)], inherited
    from [GusdPrimWrapper], writes as primvars: those that pass the filter. *)
Definition primvars_written (attrs : GT_AttributeList) (f : GusdGT_AttrFilter)
  : list string :=
  filter (fun n => matches f n = true) (getNames attrs).

(** ** The write path *)

(** [GusdContext], declared in [context.h]. *)
Inductive Granularity : Type := ONE_FILE | PER_FRAME.

#[global] Instance Granularity_eq_dec : EqDecision Granularity.
Proof. solve_decision. Defined.

Record GusdContext : Type := {
  time : UsdTimeCode;
  granularity : Granularity;
  purpose : TfToken;
  attributeFilter : GusdGT_AttrFilter;
  getOverGeo : GT_Primitive -> bool
}.

Section WritePath.

Context {base_state : Type}.

(** Matrices and the transform cache are opaque to the adapter. *)
Context {UT_Matrix4D GfMatrix4d GusdSimpleXformCache : Type}.

Variable GetParent : UsdPrim -> UsdPrim.
Variable computeTransform :
  UsdPrim -> UsdTimeCode -> UT_Matrix4D -> GusdSimpleXformCache ->
  GfMatrix4d * GusdSimpleXformCache.
Variable getExtentsArray : GT_Primitive -> option GT_DataArray.
Variable s_ownerToUsdInterp : GT_Owner -> TfToken.
(** The value returned by [GusdPrimWrapper::updateFromGTPrim]. *)
Variable base_updateFromGTPrim :
  GT_Primitive -> UT_Matrix4D -> GusdContext -> GusdSimpleXformCache ->
  bool * GusdSimpleXformCache.

(** The calls through which the write path acts on the stage.  A schema
    attribute of the write prim is named by its token. *)
Inductive WriteCall : Type :=
| UpdateAttribute (owner : GT_Owner) (name : string) (houAttr : option GT_DataArray)
    (usdAttr : TfToken) (t : UsdTimeCode)
| UpdateTransform (xform : GfMatrix4d) (t : UsdTimeCode) (force : bool)
| AttrSet (usdAttr : TfToken) (value : TfToken)
| UpdateVisibility (sourcePrim : GT_Primitive) (t : UsdTimeCode)
| UpdatePrimvars (attrs : GT_AttributeList) (filter : GusdGT_AttrFilter)
    (interpolation : TfToken) (t : UsdTimeCode)
| BaseUpdate (sourcePrim : GT_Primitive) (houXform : UT_Matrix4D) (ctxt : GusdContext).

Definition updateAttributeFromGTPrim owner name houAttr usdAttr t : Traced WriteCall unit :=
  emit (UpdateAttribute owner name houAttr usdAttr t).
Definition updateTransformFromGTPrim xform t force : Traced WriteCall unit :=
  emit (UpdateTransform xform t force).
Definition updateVisibilityFromGTPrim sourcePrim t : Traced WriteCall unit :=
  emit (UpdateVisibility sourcePrim t).
Definition updatePrimvarFromGTPrim attrs filter interpolation t : Traced WriteCall unit :=
  emit (UpdatePrimvars attrs filter interpolation t).

(** Lines 344-363: the array handed to the widths attribute. *)
Definition widths_source (sourcePrim : GT_Primitive) : option GT_DataArray * GT_Owner :=
  let '(houAttr, attrOwner) := findAttribute sourcePrim "widths" in
  match houAttr with
  | Some _ => (houAttr, attrOwner)
  | None =>
      let '(houAttr, attrOwner) := findAttribute sourcePrim "pscale" in
      (* If we found pscale, multiply values by 2 before converting to width. *)
      match houAttr with
      | Some a =>
          if decide (getTupleSize a = 1) then
            let numVals := entries a in
            let pscaleArray := fillArray a 0 numVals 1 in
            let pscaleArray := map F32.mul_two pscaleArray in
            (Some (GT_Real32Array pscaleArray 1), attrOwner)
          else (houAttr, attrOwner)
      | None => (houAttr, attrOwner)
      end
  end.

Definition reserved_point_pattern : string := "^P ^N ^v ^widths ^pscale ^visible ^usdactive".
Definition reserved_constant_pattern : string := "^visible ^usdactive".

Definition updateFromGTPrim (w : GusdPointsWrapper base_state) (sourcePrim : GT_Primitive)
    (houXform : UT_Matrix4D) (ctxt : GusdContext) (xformCache : GusdSimpleXformCache)
  : Traced WriteCall (bool * GusdSimpleXformCache) :=
  if negb (schema_valid (m_usdPointsForWrite w)) then ret (false, xformCache) else
  let writeNewGeo := negb (getOverGeo ctxt sourcePrim) in
  let '(xform, xformCache) :=
    computeTransform (GetParent (GetPrim (m_usdPointsForWrite w)))
                     (time ctxt) houXform xformCache in
  (* extent *)
  let houAttr := getExtentsArray sourcePrim in
  run updateAttributeFromGTPrim GT_OWNER_INVALID "extents" houAttr
        UsdGeomTokens.extent (time ctxt);
  (* transform *)
  run updateTransformFromGTPrim xform (time ctxt)
        (bool_decide (granularity ctxt = PER_FRAME));
  (* intrinsic attributes *)
  run (if writeNewGeo && negb (bool_decide (purpose ctxt = UsdGeomTokens.default_))
       then emit (AttrSet UsdGeomTokens.purpose (purpose ctxt))
       else ret tt);
  (* visibility *)
  run (if bool_decide (granularity ctxt = PER_FRAME)
       then updateVisibilityFromGTPrim sourcePrim (time ctxt)
       else ret tt);
  (* P *)
  let '(houAttr, attrOwner) := findAttribute sourcePrim "P" in
  run updateAttributeFromGTPrim attrOwner "P" houAttr UsdGeomTokens.points (time ctxt);
  (* N *)
  let '(houAttr, attrOwner) := findAttribute sourcePrim "N" in
  run updateAttributeFromGTPrim attrOwner "N" houAttr UsdGeomTokens.normals (time ctxt);
  (* v *)
  let '(houAttr, attrOwner) := findAttribute sourcePrim "v" in
  run updateAttributeFromGTPrim attrOwner "v" houAttr UsdGeomTokens.velocities (time ctxt);
  (* pscale & width *)
  let '(houAttr, attrOwner) := widths_source sourcePrim in
  run updateAttributeFromGTPrim attrOwner "widths" houAttr UsdGeomTokens.widths (time ctxt);
  (* primvars *)
  let filter := attributeFilter ctxt in
  let filter := appendPattern filter GT_OWNER_POINT reserved_point_pattern in
  let filter := appendPattern filter GT_OWNER_CONSTANT reserved_constant_pattern in
  do filter <-
    match getPointAttributes sourcePrim with
    | Some pointAttrs =>
        let owners := [GT_OWNER_POINT] in
        let filter := setActiveOwners filter owners in
        run updatePrimvarFromGTPrim pointAttrs filter UsdGeomTokens.vertex (time ctxt);
        ret filter
    | None => ret filter
    end;
  do filter <-
    match getDetailAttributes sourcePrim with
    | Some constAttrs =>
        let owners := [GT_OWNER_CONSTANT] in
        let filter := setActiveOwners filter owners in
        run updatePrimvarFromGTPrim constAttrs filter UsdGeomTokens.constant (time ctxt);
        ret filter
    | None => ret filter
    end;
  let '(Cd, own) := findAttribute sourcePrim "Cd" in
  run match Cd with
      | Some Cd =>
          let attrList := addAttribute GT_AttributeList_new "displayColor" Cd true in
          let filter := GusdGT_AttrFilter_new "*" in
          let owners := [own] in
          let filter := setActiveOwners filter owners in
          updatePrimvarFromGTPrim attrList filter (s_ownerToUsdInterp own) (time ctxt)
      | None => ret tt
      end;
  run emit (BaseUpdate sourcePrim houXform ctxt);
  ret (base_updateFromGTPrim sourcePrim houXform ctxt xformCache).

(** *** Observations on a run of [updateFromGTPrim] *)

(** The filter of the pass-through call for the attributes of one owner. *)
Definition passthrough_filter (ctxt : GusdContext) (owner : GT_Owner) : GusdGT_AttrFilter :=
  setActiveOwners
    (appendPattern
       (appendPattern (attributeFilter ctxt) GT_OWNER_POINT reserved_point_pattern)
       GT_OWNER_CONSTANT reserved_constant_pattern)
    [owner].

(** The updates of the schema attribute [usdAttr], in order. *)
Definition updates_of (usdAttr : TfToken) (tr : list WriteCall)
  : list (GT_Owner * string * option GT_DataArray * UsdTimeCode) :=
  omap (fun c => match c with
                 | UpdateAttribute owner name houAttr a t =>
                     if decide (a = usdAttr) then Some (owner, name, houAttr, t) else None
                 | _ => None
                 end) tr.

End WritePath.

Arguments WriteCall : clear implicits.
Arguments UpdateAttribute {UT_Matrix4D GfMatrix4d} owner name houAttr usdAttr t.
Arguments UpdateTransform {UT_Matrix4D GfMatrix4d} xform t force.
Arguments AttrSet {UT_Matrix4D GfMatrix4d} usdAttr value.
Arguments UpdateVisibility {UT_Matrix4D GfMatrix4d} sourcePrim t.
Arguments UpdatePrimvars {UT_Matrix4D GfMatrix4d} attrs filter interpolation t.
Arguments BaseUpdate {UT_Matrix4D GfMatrix4d} sourcePrim houXform ctxt.
Arguments updates_of {UT_Matrix4D GfMatrix4d} usdAttr tr.


(** ** Definition and redefinition *)

Section Define.

Context {base_state : Type}.

(** The stage is owned by the scene-description library; defining or
    overriding a prim changes it. *)
Variable UsdStage : Type.
Variable OverridePrim : UsdStage -> SdfPath -> UsdPrim * UsdStage.
Variable UsdGeomPoints_Define : UsdStage -> SdfPath -> UsdGeomPoints * UsdStage.
(** [clearCaches], inherited from [GusdPrimWrapper], acts on the base
    class members. *)
Variable clearCaches : base_state -> base_state.

Definition set_usdPointsForWrite (w : GusdPointsWrapper base_state) (g : UsdGeomPoints)
  : GusdPointsWrapper base_state :=
  {| m_time := m_time w; m_base := m_base w;
     m_usdPointsForWrite := g; m_usdPointsForRead := m_usdPointsForRead w |}.

Definition initUsdPrim (w : GusdPointsWrapper base_state) (stage : UsdStage)
    (path : SdfPath) (asOverride : bool)
  : bool * GusdPointsWrapper base_state * UsdStage :=
  let '(g, stage) :=
    if asOverride then
      let '(prim, stage) := OverridePrim stage path in
      ({| GetPrim := prim |}, stage)
    else UsdGeomPoints_Define stage path in
  let w := set_usdPointsForWrite w g in
  (schema_valid (m_usdPointsForWrite w), w, stage).

Definition redefine (w : GusdPointsWrapper base_state) (stage : UsdStage)
    (path : SdfPath) (ctxt : GusdContext) (sourcePrim : GT_Primitive)
  : bool * GusdPointsWrapper base_state * UsdStage :=
  let '(_, w, stage) := initUsdPrim w stage path (getOverGeo ctxt sourcePrim) in
  let w :=
    {| m_time := m_time w; m_base := clearCaches (m_base w);
       m_usdPointsForWrite := m_usdPointsForWrite w;
       m_usdPointsForRead := m_usdPointsForRead w |} in
  (true, w, stage).

End Define.

(** ** A small scene for concrete runs *)

Module Scene.

Definition v3 (x y z : fpreal32) : GfVec3f := (x, y, z).
Definition zero : fpreal32 := S754_zero false.

Definition authored (v : VtValue) : UsdAttribute :=
  {| attr_valid := true; HasAuthoredValueOpinion := true; attr_value := fun _ => Some v |}.

Definition unauthored : UsdAttribute :=
  {| attr_valid := true; HasAuthoredValueOpinion := false; attr_value := fun _ => None |}.

(** Two points; one normal (too few), two velocities, three widths. *)
Definition cloud_attribute (name : TfToken) : UsdAttribute :=
  if decide (name = "points") then
    authored (VtVec3fArray [v3 zero zero zero; v3 F32.one zero zero])
  else if decide (name = "normals") then
    authored (VtVec3fArray [v3 zero F32.one zero])
  else if decide (name = "velocities") then
    authored (VtVec3fArray [v3 zero zero F32.half; v3 zero zero F32.one])
  else if decide (name = "widths") then
    authored (VtFloatArray [F32.one; F32.half; F32.min_subnormal])
  else unauthored.

Definition cloud : UsdGeomPoints :=
  {| GetPrim := {| prim_valid := true; GetPath := "/cloud";
                   prim_attribute := cloud_attribute |} |}.

Definition no_prim : UsdGeomPoints :=
  {| GetPrim := {| prim_valid := false; GetPath := "";
                   prim_attribute := fun _ => invalid_attribute |} |}.

Definition reader : GusdPointsWrapper unit :=
  {| m_time := TimeSample 1; m_base := tt;
     m_usdPointsForWrite := no_prim; m_usdPointsForRead := cloud |}.

Definition writer : GusdPointsWrapper unit :=
  {| m_time := TimeDefault; m_base := tt;
     m_usdPointsForWrite := cloud; m_usdPointsForRead := no_prim |}.

Definition unset : GusdPointsWrapper unit :=
  {| m_time := TimeDefault; m_base := tt;
     m_usdPointsForWrite := no_prim; m_usdPointsForRead := no_prim |}.

(** The host's refinement parameters reduced to the viewport flag. *)
Definition useViewportLOD (parms : option bool) : bool := default false parms.

(** A prim without authored primvars: the lists come back as they are. *)
Definition loadPrimvars (_ : UsdTimeCode) (_ : option bool) (_ _ _ : nat) (_ : string)
    (targets : PrimvarTargets) : PrimvarTargets := targets.

Definition refine := refine (base_state := unit) useViewportLOD loadPrimvars.

(** Host primitives for the write path. *)
Definition scalars (l : list fpreal32) : GT_DataArray := GT_Real32Array l 1.

Definition prim_with (point : GT_AttributeList) : GT_Primitive :=
  {| getVertexAttributes := None; getPointAttributes := Some point;
     getUniformAttributes := None; getDetailAttributes := Some [] |}.

Definition P2 : GT_DataArray :=
  GusdGT_VtArray [v3 zero zero zero; v3 F32.one zero zero] GT_TYPE_POINT.

Definition with_pscale : GT_Primitive :=
  prim_with [("P", P2); ("pscale", scalars [F32.half; F32.one])].

Definition with_widths : GT_Primitive :=
  prim_with [("P", P2); ("widths", scalars [F32.one; F32.one]);
             ("pscale", scalars [F32.half; F32.half])].

Definition with_vector_pscale : GT_Primitive :=
  prim_with [("P", P2); ("pscale", GT_Real32Array [F32.half; F32.half; F32.half] 3)].


Definition context (g : Granularity) (p : TfToken) (over : bool) : GusdContext :=
  {| time := TimeSample 1; granularity := g; purpose := p;
     attributeFilter := GusdGT_AttrFilter_new "*";
     getOverGeo := fun _ => over |}.

Definition computeTransform (_ : UsdPrim) (_ : UsdTimeCode) (m : unit) (c : unit)
  : unit * unit := (m, c).

Definition getExtentsArray (_ : GT_Primitive) : option GT_DataArray := None.

Definition s_ownerToUsdInterp (o : GT_Owner) : TfToken :=
  match o with
  | GT_OWNER_POINT => "vertex"
  | GT_OWNER_VERTEX => "faceVarying"
  | GT_OWNER_UNIFORM => "uniform"
  | GT_OWNER_CONSTANT => "constant"
  | GT_OWNER_INVALID => ""
  end.

Definition base_updateFromGTPrim (_ : GT_Primitive) (_ : unit) (_ : GusdContext)
    (c : unit) : bool * unit := (true, c).

Definition updateFromGTPrim :=
  updateFromGTPrim (base_state := unit) (fun p => p) computeTransform
    getExtentsArray s_ownerToUsdInterp base_updateFromGTPrim.

(** A stage on which only absolute paths can be defined or overridden. *)
Definition is_absolute (path : SdfPath) : bool :=
  match path with String "/"%char _ => true | _ => false end.

Definition prim_at (path : SdfPath) : UsdPrim :=
  {| prim_valid := is_absolute path; GetPath := path;
     prim_attribute := fun _ => unauthored |}.

Definition OverridePrim (stage : list SdfPath) (path : SdfPath) : UsdPrim * list SdfPath :=
  (prim_at path, if is_absolute path then path :: stage else stage).

Definition Define (stage : list SdfPath) (path : SdfPath) : UsdGeomPoints * list SdfPath :=
  ({| GetPrim := prim_at path |}, if is_absolute path then path :: stage else stage).

Definition redefine :=
  redefine (base_state := unit) (list SdfPath) OverridePrim Define (fun b => b).

End Scene.

(** ** Construction *)

(** A default-constructed schema object holds no prim. *)
Definition UsdPrim_default : UsdPrim :=
  {| prim_valid := false; GetPath := ""; prim_attribute := fun _ => invalid_attribute |}.

Definition UsdGeomPoints_default : UsdGeomPoints := {| GetPrim := UsdPrim_default |}.

(** The imageable schema object that [defineForRead] receives. *)
Record UsdGeomImageable : Type := { Imageable_GetPrim : UsdPrim }.

Section Construct.

Context {base_state UsdStage GusdUSD_StageProxyHandle GusdPurposeSet : Type}.

Variable OverridePrim : UsdStage -> SdfPath -> UsdPrim * UsdStage.
Variable UsdGeomPoints_Define : UsdStage -> SdfPath -> UsdGeomPoints * UsdStage.

(** The two constructors of the base class [GusdPrimWrapper]: the time and
    the other members they leave in the object. *)
Variable GusdPrimWrapper_default : UsdTimeCode * base_state.
Variable GusdPrimWrapper_new : UsdTimeCode -> GusdPurposeSet -> UsdTimeCode * base_state.

(** [GusdPointsWrapper(stage, path, isOverride)], lines 42-49. *)
Definition GusdPointsWrapper_forWrite (stage : UsdStage) (path : SdfPath) (isOverride : bool)
  : GusdPointsWrapper base_state * UsdStage :=
  let w :=
    {| m_time := GusdPrimWrapper_default.1; m_base := GusdPrimWrapper_default.2;
       m_usdPointsForWrite := UsdGeomPoints_default;
       m_usdPointsForRead := UsdGeomPoints_default |} in
  let '(_, w, stage) :=
    initUsdPrim UsdStage OverridePrim UsdGeomPoints_Define w stage path isOverride in
  (w, stage).

(** [GusdPointsWrapper(stage, usdPoints, time, purposes)], lines 51-60; the
    stage proxy only lends its lock to the holder. *)
Definition GusdPointsWrapper_forRead (stage : GusdUSD_StageProxyHandle)
    (usdPoints : UsdGeomPoints) (time : UsdTimeCode) (purposes : GusdPurposeSet)
  : GusdPointsWrapper base_state :=
  {| m_time := (GusdPrimWrapper_new time purposes).1;
     m_base := (GusdPrimWrapper_new time purposes).2;
     m_usdPointsForWrite := UsdGeomPoints_default;
     m_usdPointsForRead := usdPoints |}.

Definition defineForWrite (sourcePrim : GT_Primitive) (stage : UsdStage) (path : SdfPath)
    (ctxt : GusdContext) : GusdPointsWrapper base_state * UsdStage :=
  GusdPointsWrapper_forWrite stage path (getOverGeo ctxt sourcePrim).

Definition defineForRead (stage : GusdUSD_StageProxyHandle) (sourcePrim : UsdGeomImageable)
    (time : UsdTimeCode) (purposes : GusdPurposeSet) : GusdPointsWrapper base_state :=
  GusdPointsWrapper_forRead stage {| GetPrim := Imageable_GetPrim sourcePrim |} time purposes.

End Construct.

(** ** Further observations on runs *)

(** The diagnostics of a run of [refine], in order. *)
Definition warnings {P : Type} (tr : list (ReadCall P)) : list (string * list WarnArg) :=
  omap (fun c => match c with TF_WARN fmt args => Some (fmt, args) | _ => None end) tr.

(** A call that, if it is a diagnostic, reports one of the three optional
    attributes as shorter than the position array. *)
Definition short_of {B P : Type} (w : GusdPointsWrapper B) (c : ReadCall P) : Prop :=
  ∀ fmt args, c = TF_WARN fmt args →
    ∃ what got,
      what ∈ ["normals"; "velocities"; "widths"]
      ∧ got < length (usdPoints_read w)
      ∧ c = short_warning w what got.

(** The primvar calls of a run of [updateFromGTPrim], in order. *)
Definition primvar_calls {U G : Type} (tr : list (WriteCall U G))
  : list (GT_AttributeList * GusdGT_AttrFilter * TfToken * UsdTimeCode) :=
  omap (fun c => match c with
                 | UpdatePrimvars attrs f interp t => Some (attrs, f, interp, t)
                 | _ => None
                 end) tr.

(** The transform updates of a run of [updateFromGTPrim], in order. *)
Definition transform_updates {U G : Type} (tr : list (WriteCall U G))
  : list (G * UsdTimeCode * bool) :=
  omap (fun c => match c with
                 | UpdateTransform xform t force => Some (xform, t, force)
                 | _ => None
                 end) tr.

(** The values on which halving and doubling lose nothing: zeros,
    infinities, and the normal numbers from [2^-125] up to the largest
    finite one.  NaN is left out: [spec_float] has a single NaN, so that
    nothing can be said here about payloads or the signalling bit. *)
Definition scales_exactly (x : fpreal32) : bool :=
  match x with
  | S754_finite _ m e =>
      Pos.eqb (digits2_pos m) 24 && Z.leb (-148) e && Z.leb e 104
  | S754_nan => false
  | _ => true
  end.

(** ** Single precision values as numbers *)

Module Binary32.

(** The values that a [float] can hold: a mantissa of 24 digits, or of
    fewer digits at the lowest exponent, and an exponent in range. *)
Definition is_binary32 (x : spec_float) : bool := valid_binary F32.prec F32.emax x.

(** The number that a zero or a finite value stands for. *)
Definition value (x : spec_float) : option Q :=
  match x with
  | S754_zero _ => Some 0%Q
  | S754_finite s m e =>
      Some ((if s then -1 else 1) * inject_Z (Zpos m) * Qpower 2 e)%Q
  | _ => None
  end.

(** Whether half of a binary32 value is a binary32 value again: it is not
    for an odd mantissa at the lowest exponent. *)
Definition halves_exactly (x : spec_float) : bool :=
  match x with
  | S754_finite _ m e =>
      Z.ltb (-149) e || match m with xO _ => true | _ => false end
  | _ => true
  end.

(** Whether twice a binary32 value is finite: it is not in the top binade. *)
Definition doubles_finitely (x : spec_float) : bool :=
  match x with
  | S754_finite _ _ e => Z.ltb e 104
  | _ => true
  end.

End Binary32.

(** The calls of [updateAttributeFromGTPrim] of a run, in order: the schema
    attribute, the host name, the host handle and the time. *)
Definition attribute_updates {U G : Type} (tr : list (WriteCall U G))
  : list (TfToken * string * option GT_DataArray * UsdTimeCode) :=
  omap (fun c => match c with
                 | UpdateAttribute _ name houAttr usdAttr t => Some (usdAttr, name, houAttr, t)
                 | _ => None
                 end) tr.

(** ** More of the scene *)

Module Cases.

(** Two points and two normals; velocities and widths are authored but
    have no value at any time. *)
Definition blocked : UsdAttribute :=
  {| attr_valid := true; HasAuthoredValueOpinion := true; attr_value := fun _ => None |}.

Definition normals2 : VtArray GfVec3f :=
  [Scene.v3 Scene.zero F32.one Scene.zero; Scene.v3 F32.one Scene.zero Scene.zero].

Definition gappy_attribute (name : TfToken) : UsdAttribute :=
  if decide (name = "points") then
    Scene.authored
      (VtVec3fArray [Scene.v3 Scene.zero Scene.zero Scene.zero;
                     Scene.v3 F32.one Scene.zero Scene.zero])
  else if decide (name = "normals") then Scene.authored (VtVec3fArray normals2)
  else if decide (name = "velocities") then blocked
  else if decide (name = "widths") then blocked
  else Scene.unauthored.

Definition gappy : UsdGeomPoints :=
  {| GetPrim := {| prim_valid := true; GetPath := "/gappy";
                   prim_attribute := gappy_attribute |} |}.

Definition gappy_reader : GusdPointsWrapper unit :=
  {| m_time := TimeSample 1; m_base := tt;
     m_usdPointsForWrite := Scene.no_prim; m_usdPointsForRead := gappy |}.

(** Two points with two widths that scale exactly. *)
Definition sized_attribute (name : TfToken) : UsdAttribute :=
  if decide (name = "points") then
    Scene.authored
      (VtVec3fArray [Scene.v3 Scene.zero Scene.zero Scene.zero;
                     Scene.v3 F32.one Scene.zero Scene.zero])
  else if decide (name = "widths") then
    Scene.authored (VtFloatArray [F32.one; F32.half])
  else Scene.unauthored.

Definition sized : UsdGeomPoints :=
  {| GetPrim := {| prim_valid := true; GetPath := "/sized";
                   prim_attribute := sized_attribute |} |}.

Definition sized_reader : GusdPointsWrapper unit :=
  {| m_time := TimeSample 1; m_base := tt;
     m_usdPointsForWrite := Scene.no_prim; m_usdPointsForRead := sized |}.

Definition with_color : GT_Primitive :=
  {| getVertexAttributes := None;
     getPointAttributes := Some [("P", Scene.P2); ("Cd", Scene.P2)];
     getUniformAttributes := None;
     getDetailAttributes := None |}.

Definition forWrite :=
  GusdPointsWrapper_forWrite (base_state := unit) Scene.OverridePrim Scene.Define
    (TimeDefault, tt).


End Cases.

(** * Properties *)

(** ** Single precision arithmetic *)

Section F32Facts.

Local Open Scope Z_scope.

Lemma fexp_canonical (prec emax E : Z) :
  emin prec emax <= E → fexp prec emax (prec + E) = E.
Proof. unfold fexp. intros H. rewrite Z.max_l; lia. Qed.

(** Rounding is exact on a mantissa that consists of [prec] significant
    digits followed by [k] zero bits. *)
Lemma binary_round_aux_exact (prec emax : Z) (s : bool) (M M' : positive) (E k : Z) :
  0 <= k →
  Zpos (digits2_pos M') = prec + k →
  F32.shifted k M' = Build_shr_record (Zpos M) false false →
  Zpos (digits2_pos M) = prec →
  emin prec emax <= E <= emax - prec →
  binary_round_aux prec emax s (Zpos M') (E - k) loc_Exact = S754_finite s M E.
Proof.
  intros Hk Hdig Hshr HM HE. unfold binary_round_aux, shr_fexp.
  cbn [Zdigits2 shr_record_of_loc]. rewrite Hdig.
  replace (prec + k + (E - k)) with (prec + E) by lia.
  rewrite fexp_canonical by lia.
  replace (E - (E - k)) with k by lia.
  assert (Hs : shr (Build_shr_record (Zpos M') false false) (E - k) k
               = (Build_shr_record (Zpos M) false false, E)).
  { unfold shr. unfold F32.shifted in Hshr. destruct k as [|p|p]; try lia.
    - rewrite Hshr. f_equal. lia.
    - rewrite Hshr. f_equal. lia. }
  rewrite Hs. cbn [shr_m loc_of_shr_record round_nearest_even Zdigits2 shr_record_of_loc].
  rewrite HM, fexp_canonical by lia. rewrite Z.sub_diag. cbn [shr shr_m].
  destruct (Z.leb_spec E (emax - prec)); [reflexivity|lia].
Qed.

Lemma digits2_shl (m : positive) (k : nat) :
  Zpos (digits2_pos (F32.shl m k)) = Zpos (digits2_pos m) + Z.of_nat k.
Proof.
  induction k as [|k IH]; [simpl; lia|].
  cbn [F32.shl digits2_pos]. rewrite Pos2Z.inj_succ, IH. lia.
Qed.

Ltac exact_side :=
  first
    [ unfold emin; lia
    | rewrite digits2_shl;
      match goal with H : digits2_pos _ = _ |- _ => rewrite H end; reflexivity
    | match goal with H : digits2_pos _ = _ |- _ => rewrite H end; reflexivity
    | vm_compute; reflexivity ].

(** On a normal number whose half is not subnormal, [x * .5] lowers the
    exponent by one and keeps the mantissa. *)
Lemma mul_half_exact (s : bool) (m : positive) (e : Z) :
  digits2_pos m = 24%positive → -148 <= e <= 104 →
  F32.mul_half (S754_finite s m e) = S754_finite s m (e - 1).
Proof.
  intros Hd He.
  unfold F32.mul_half, F32.prec, F32.emax, F32.prec_double, F32.emax_double.
  assert (Hdig : Zpos (digits2_pos (F32.shl m 29)) = 53).
  { rewrite digits2_shl, Hd. reflexivity. }
  assert (H1 : F32.convert 53 1024 (S754_finite s m e)
               = S754_finite s (F32.shl m 29) (e - 29)).
  { unfold F32.convert, binary_round. rewrite Hd. unfold fexp at 1.
    rewrite Z.max_l by (unfold emin; lia).
    unfold shl_align. replace (24 + e - 53 - e) with (-29) by lia.
    replace (24 + e - 53) with ((e - 29) - 0) by lia.
    change (Pos.iter xO m 29) with (F32.shl m 29).
    apply binary_round_aux_exact; exact_side. }
  rewrite H1.
  assert (H2 : SFmul 53 1024 (S754_finite s (F32.shl m 29) (e - 29)) F32.half_double
               = S754_finite s (F32.shl m 29) (e - 30)).
  { change F32.half_double with (S754_finite false 4503599627370496 (-53)).
    cbn [SFmul]. rewrite Pos.mul_comm, Bool.xorb_false_r.
    change (4503599627370496 * F32.shl m 29)%positive with (F32.shl (F32.shl m 29) 52).
    replace (e - 29 + -53) with ((e - 30) - 52) by lia.
    apply binary_round_aux_exact; first [exact_side | rewrite digits2_shl, Hdig; reflexivity]. }
  rewrite H2.
  unfold F32.convert, binary_round.
  rewrite Hdig. unfold fexp at 1. rewrite Z.max_l by (unfold emin; lia).
  unfold shl_align. replace (53 + (e - 30) - 24 - (e - 30)) with 29 by lia.
  replace (e - 30) with ((e - 1) - 29) by lia.
  apply binary_round_aux_exact; exact_side.
Qed.

(** On a normal number whose double does not overflow, [2.0 * x] raises
    the exponent by one and keeps the mantissa. *)
Lemma mul_two_exact (s : bool) (m : positive) (e : Z) :
  digits2_pos m = 24%positive → -149 <= e <= 103 →
  F32.mul_two (S754_finite s m e) = S754_finite s m (e + 1).
Proof.
  intros Hd He. unfold F32.mul_two, F32.prec, F32.emax.
  change F32.two with (S754_finite false 8388608 (-22)).
  cbn [SFmul xorb].
  change (8388608 * m)%positive with (F32.shl m 23).
  replace (-22 + e) with ((e + 1) - 23) by lia.
  apply binary_round_aux_exact; exact_side.
Qed.

(** A width that is halved on read and doubled on write comes back as it
    was. *)
Lemma mul_two_mul_half (s : bool) (m : positive) (e : Z) :
  digits2_pos m = 24%positive → -148 <= e <= 104 →
  F32.mul_two (F32.mul_half (S754_finite s m e)) = S754_finite s m e.
Proof.
  intros Hd He. rewrite mul_half_exact, mul_two_exact by (done || lia).
  f_equal. lia.
Qed.

End F32Facts.

Example mul_half_one : F32.mul_half F32.one = F32.half.
Proof. vm_compute. reflexivity. Qed.

Example mul_two_half : F32.mul_two F32.half = F32.one.
Proof. vm_compute. reflexivity. Qed.

Example mul_half_underflow : F32.mul_half F32.min_subnormal = S754_zero false.
Proof. vm_compute. reflexivity. Qed.

Example mul_two_overflow :
  F32.mul_two (S754_finite false 16777215 104) = S754_infinity false.
Proof. vm_compute. reflexivity. Qed.

(** ** Traces *)

(** Membership of a call in a trace that is built from appends and conses. *)
Ltac in_trace :=
  repeat first [rewrite elem_of_app | rewrite elem_of_cons | rewrite elem_of_nil];
  auto 12.

(** ** Attribute lists *)

Lemma get_addAttribute_eq (l : GT_AttributeList) name d :
  get (addAttribute l name d true) name = Some d.
Proof.
  induction l as [|[n d'] l IH]; simpl.
  - by rewrite decide_True.
  - destruct (decide (n = name)) as [->|Hne]; simpl.
    + by rewrite decide_True.
    + by rewrite decide_False.
Qed.

Lemma get_addAttribute_ne (l : GT_AttributeList) name name' d r :
  name ≠ name' → get (addAttribute l name d r) name' = get l name'.
Proof.
  intros Hne. induction l as [|[n d'] l IH]; simpl.
  - by rewrite decide_False.
  - destruct (decide (n = name)) as [->|Hn].
    + destruct r; simpl; [|done]. by rewrite !decide_False.
    + simpl. by rewrite IH.
Qed.

(** ** Data arrays *)

Lemma lookup_map_Some {A B} (f : A → B) (l : list A) (i : nat) (x : A) :
  l !! i = Some x → map f l !! i = Some (f x).
Proof.
  revert i. induction l as [|a l IH]; intros [|i]; simpl; try done.
  - by intros [= ->].
  - apply IH.
Qed.

Lemma fillArray_scalars (d : list fpreal32) :
  fillArray (GT_Real32Array d 1) 0 (entries (GT_Real32Array d 1)) 1 = d.
Proof.
  unfold fillArray, entries, getTupleSize, flat_data. rewrite Nat.div_1_r.
  induction d as [|x d IH]; simpl; [done|].
  f_equal. rewrite <- seq_shift, flat_map_concat_map, map_map, <- flat_map_concat_map.
  rewrite <- IH at 2. apply flat_map_ext. intros i. by simpl.
Qed.

Lemma fillArray_tuple1 (a : GT_DataArray) :
  getTupleSize a = 1 → fillArray a 0 (entries a) 1 = flat_data a.
Proof.
  destruct a as [v ty|d ts]; simpl; [done|].
  intros ->. apply fillArray_scalars.
Qed.

(** ** The halving loop *)

Lemma halve_into_step (vt : list spec_float) (z : spec_float) (n i : nat) :
  i + n = length vt →
  halve_into vt (map F32.mul_half (take i vt) ++ replicate n z) i n
  = map F32.mul_half vt.
Proof.
  revert i. induction n as [|n IH]; intros i Hlen; simpl; unfold VtArray, fpreal32.
  - rewrite app_nil_r, take_ge by lia. done.
  - destruct (vt !! i) as [x|] eqn:Hx.
    + rewrite <- (IH (S i)) by lia. f_equal.
      rewrite (take_S_r vt i x Hx), map_app. simpl.
      rewrite <- app_assoc. simpl.
      assert (Hl : length (map F32.mul_half (take i vt)) = i).
      { rewrite length_map, length_take. lia. }
      rewrite insert_app_r_alt by lia.
      by rewrite Hl, Nat.sub_diag.
    + apply lookup_ge_None in Hx. lia.
Qed.

Lemma halve_into_map (vt : VtArray fpreal32) :
  halve_into vt (replicate (length vt * 1) (S754_zero false)) 0 (length vt)
  = map F32.mul_half vt.
Proof.
  rewrite Nat.mul_1_r.
  apply (halve_into_step vt (S754_zero false) (length vt) 0). done.
Qed.

(** ** The read path *)

Section ReadFacts.

Context {base_state : Type}.
Context {GT_RefineParms : Type}.
Variable useViewportLOD : option GT_RefineParms -> bool.
Variable loadPrimvars :
  UsdTimeCode -> option GT_RefineParms -> nat -> nat -> nat -> string ->
  PrimvarTargets -> PrimvarTargets.

Implicit Types (w : GusdPointsWrapper base_state) (g : UsdGeomPoints).
Implicit Types (pos buf : VtArray GfVec3f) (attrs : GT_AttributeList).

Local Abbreviation refine := (refine useViewportLOD loadPrimvars).
Local Abbreviation Call := (ReadCall GT_RefineParms).
Local Abbreviation refine_normals := (@refine_normals base_state GT_RefineParms).
Local Abbreviation refine_velocities := (@refine_velocities base_state GT_RefineParms).
Local Abbreviation refine_widths := (@refine_widths base_state GT_RefineParms).
Local Abbreviation optional_blocks := (@optional_blocks base_state GT_RefineParms).

(** *** Each block touches one name only *)

Lemma refine_normals_frame w g pos buf attrs name :
  name ≠ "N" →
  get (result (refine_normals w g pos buf attrs)).2 name = get attrs name.
Proof.
  intros Hne. unfold refine_normals.
  destruct (attr_valid _ && HasAuthoredValueOpinion _); [|done].
  cbn. case_decide; cbn; [done|]. by apply get_addAttribute_ne.
Qed.

Lemma refine_velocities_frame w g pos buf attrs name :
  name ≠ "v" →
  get (result (refine_velocities w g pos buf attrs)).2 name = get attrs name.
Proof.
  intros Hne. unfold refine_velocities.
  destruct (attr_valid _ && HasAuthoredValueOpinion _); [|done].
  cbn. case_decide; cbn; [done|]. by apply get_addAttribute_ne.
Qed.

Lemma refine_widths_frame w g pos (fbuf : VtArray fpreal32) attrs name :
  name ≠ "pscale" →
  get (result (refine_widths w g pos fbuf attrs)).2 name = get attrs name.
Proof.
  intros Hne. unfold refine_widths.
  destruct (attr_valid _ && HasAuthoredValueOpinion _); [|done].
  cbn. case_decide; cbn; [done|]. by apply get_addAttribute_ne.
Qed.

(** *** Each block on an authored array *)

Lemma refine_normals_authored w g pos buf attrs v :
  attr_valid (GetNormalsAttr g) = true →
  HasAuthoredValueOpinion (GetNormalsAttr g) = true →
  attr_value (GetNormalsAttr g) (m_time w) = Some (VtVec3fArray v) →
  refine_normals w g pos buf attrs =
    if decide (length v < length pos) then
      ((v, attrs),
       [UsdGet UsdGeomTokens.normals (m_time w);
        TF_WARN (not_enough "normals")
          [ArgText (GetPath (GetPrim g)); ArgSize (length pos); ArgSize (length v)]])
    else
      ((v, addAttribute attrs "N" (GusdGT_VtArray v GT_TYPE_NORMAL) true),
       [UsdGet UsdGeomTokens.normals (m_time w)]).
Proof.
  intros Hv Ha Hval. unfold refine_normals, readVec3f, Get_Vec3fArray.
  rewrite Hv, Ha, Hval. unfold bind, warn, emit, ret; simpl. by case_decide.
Qed.

Lemma refine_velocities_authored w g pos buf attrs v :
  attr_valid (GetVelocitiesAttr g) = true →
  HasAuthoredValueOpinion (GetVelocitiesAttr g) = true →
  attr_value (GetVelocitiesAttr g) (m_time w) = Some (VtVec3fArray v) →
  refine_velocities w g pos buf attrs =
    if decide (length v < length pos) then
      ((v, attrs),
       [UsdGet UsdGeomTokens.velocities (m_time w);
        TF_WARN (not_enough "velocities")
          [ArgText (GetPath (GetPrim g)); ArgSize (length pos); ArgSize (length v)]])
    else
      ((v, addAttribute attrs "v" (GusdGT_VtArray v GT_TYPE_VECTOR) true),
       [UsdGet UsdGeomTokens.velocities (m_time w)]).
Proof.
  intros Hv Ha Hval. unfold refine_velocities, readVec3f, Get_Vec3fArray.
  rewrite Hv, Ha, Hval. unfold bind, warn, emit, ret; simpl. by case_decide.
Qed.

Lemma refine_widths_authored w g pos (fbuf : VtArray fpreal32) attrs v :
  attr_valid (GetWidthsAttr g) = true →
  HasAuthoredValueOpinion (GetWidthsAttr g) = true →
  attr_value (GetWidthsAttr g) (m_time w) = Some (VtFloatArray v) →
  refine_widths w g pos fbuf attrs =
    if decide (length v < length pos) then
      ((v, attrs),
       [UsdGet UsdGeomTokens.widths (m_time w);
        TF_WARN (not_enough "widths")
          [ArgText (GetPath (GetPrim g)); ArgSize (length pos); ArgSize (length v)]])
    else
      ((v, addAttribute attrs "pscale" (GT_Real32Array (map F32.mul_half v) 1) true),
       [UsdGet UsdGeomTokens.widths (m_time w)]).
Proof.
  intros Hv Ha Hval. unfold refine_widths, readFloat, Get_FloatArray.
  rewrite Hv, Ha, Hval. unfold bind, warn, emit, ret; simpl. case_decide; [done|].
  by rewrite halve_into_map.
Qed.

(** *** The three blocks in sequence *)

Lemma refine_full w parms :
  isValid w = true →
  attr_valid (GetPointsAttr (m_usdPointsForRead w)) = true →
  useViewportLOD parms = false →
  let built := result (optional_blocks w) in
  let path := GetPath (GetPrim (m_usdPointsForRead w)) in
  let n := length (usdPoints_read w) in
  let loaded := loadPrimvars (m_time w) parms 0 n 0 path (primvar_targets built) in
  refine w parms =
    (true,
     UsdGet UsdGeomTokens.points (m_time w)
     :: trace (optional_blocks w)
     ++ [LoadPrimvars (m_time w) parms 0 n 0 path (primvar_targets built);
         AddPrimitive
           (GT_PrimPointMesh (default built (tgt_point loaded))
                             (default GT_AttributeList_new (tgt_constant loaded)))]).
Proof.
  intros Hw Hp Hlod. unfold refine, optional_blocks, usdPoints_read, readVec3f.
  rewrite Hw, Hp, Hlod. unfold bind, emit, ret, result, trace.
  cbn -[refine_normals refine_velocities refine_widths].
  set (pos := Get_Vec3fArray _ _ _).
  destruct (refine_normals _ _ _ _ _) as [[b1 l1] t1].
  cbn -[refine_velocities refine_widths].
  destruct (refine_velocities _ _ _ _ _) as [[b2 l2] t2].
  cbn -[refine_widths].
  destruct (refine_widths _ _ _ _ _) as [[b3 l3] t3]. cbn.
  by rewrite <- !app_assoc.
Qed.

Lemma refine_viewport w parms :
  isValid w = true →
  attr_valid (GetPointsAttr (m_usdPointsForRead w)) = true →
  useViewportLOD parms = true →
  refine w parms =
    (true,
     [UsdGet UsdGeomTokens.points (m_time w);
      AddPrimitive
        (GT_PrimPointMesh [("P", GusdGT_VtArray (usdPoints_read w) GT_TYPE_POINT)] [])]).
Proof.
  intros Hw Hp Hlod. unfold refine. by rewrite Hw, Hp, Hlod.
Qed.

Lemma refine_fails w parms :
  isValid w = false ∨ attr_valid (GetPointsAttr (m_usdPointsForRead w)) = false →
  result (refine w parms) = false ∧ added_primitives (trace (refine w parms)) = [].
Proof.
  unfold refine. destruct (isValid w); [|done].
  intros [?|Hp]; [done|]. by rewrite Hp.
Qed.

(** *** What the optional blocks call *)

Lemma refine_normals_calls w g pos buf attrs :
  Forall read_or_warn (trace (refine_normals w g pos buf attrs)).
Proof.
  unfold refine_normals, readVec3f, warn, bind, emit, ret, trace.
  destruct (attr_valid _ && HasAuthoredValueOpinion _); simpl; [|constructor].
  case_decide; simpl; repeat constructor.
Qed.

Lemma refine_velocities_calls w g pos buf attrs :
  Forall read_or_warn (trace (refine_velocities w g pos buf attrs)).
Proof.
  unfold refine_velocities, readVec3f, warn, bind, emit, ret, trace.
  destruct (attr_valid _ && HasAuthoredValueOpinion _); simpl; [|constructor].
  case_decide; simpl; repeat constructor.
Qed.

Lemma refine_widths_calls w g pos (fbuf : VtArray fpreal32) attrs :
  Forall read_or_warn (trace (refine_widths w g pos fbuf attrs)).
Proof.
  unfold refine_widths, readFloat, warn, bind, emit, ret, trace.
  destruct (attr_valid _ && HasAuthoredValueOpinion _); simpl; [|constructor].
  case_decide; simpl; repeat constructor.
Qed.

Lemma optional_blocks_calls w : Forall read_or_warn (trace (optional_blocks w)).
Proof.
  unfold optional_blocks. cbn [trace snd]. rewrite !Forall_app.
  auto using refine_normals_calls, refine_velocities_calls, refine_widths_calls.
Qed.

Lemma no_primitive_added (tr : list (ReadCall GT_RefineParms)) :
  Forall read_or_warn tr → added_primitives tr = [].
Proof.
  induction 1 as [|c tr Hc _ IH]; [done|].
  unfold added_primitives in *. simpl. by destruct c; rewrite ?IH.
Qed.

Lemma no_primvars_loaded (tr : list (ReadCall GT_RefineParms)) :
  Forall read_or_warn tr → lists_before_primvars tr = [].
Proof.
  induction 1 as [|c tr Hc _ IH]; [done|].
  unfold lists_before_primvars in *. simpl. by destruct c; rewrite ?IH.
Qed.

Lemma added_primitives_app (tr1 tr2 : list (ReadCall GT_RefineParms)) :
  added_primitives (tr1 ++ tr2) = added_primitives tr1 ++ added_primitives tr2.
Proof. apply omap_app. Qed.

Lemma added_primitives_cons (c : ReadCall GT_RefineParms) tr :
  added_primitives (c :: tr) = added_primitives [c] ++ added_primitives tr.
Proof. apply (added_primitives_app [c] tr). Qed.

Lemma lists_before_primvars_app (tr1 tr2 : list (ReadCall GT_RefineParms)) :
  lists_before_primvars (tr1 ++ tr2)
  = lists_before_primvars tr1 ++ lists_before_primvars tr2.
Proof. apply omap_app. Qed.

Lemma lists_before_primvars_cons (c : ReadCall GT_RefineParms) tr :
  lists_before_primvars (c :: tr) = lists_before_primvars [c] ++ lists_before_primvars tr.
Proof. apply (lists_before_primvars_app [c] tr). Qed.

Lemma attributes_read_app (tr1 tr2 : list (ReadCall GT_RefineParms)) :
  attributes_read (tr1 ++ tr2) = attributes_read tr1 ++ attributes_read tr2.
Proof. apply omap_app. Qed.

Lemma refine_full_lists w parms :
  isValid w = true →
  attr_valid (GetPointsAttr (m_usdPointsForRead w)) = true →
  useViewportLOD parms = false →
  lists_before_primvars (trace (refine w parms)) = [result (optional_blocks w)].
Proof.
  intros Hw Hp Hlod. rewrite (refine_full w parms Hw Hp Hlod). cbn [trace snd].
  rewrite lists_before_primvars_cons, lists_before_primvars_app.
  by rewrite (no_primvars_loaded _ (optional_blocks_calls w)).
Qed.

Lemma refine_full_added w parms :
  isValid w = true →
  attr_valid (GetPointsAttr (m_usdPointsForRead w)) = true →
  useViewportLOD parms = false →
  let built := result (optional_blocks w) in
  let loaded :=
    loadPrimvars (m_time w) parms 0 (length (usdPoints_read w)) 0
      (GetPath (GetPrim (m_usdPointsForRead w))) (primvar_targets built) in
  added_primitives (trace (refine w parms)) =
    [GT_PrimPointMesh (default built (tgt_point loaded))
                      (default GT_AttributeList_new (tgt_constant loaded))].
Proof.
  intros Hw Hp Hlod. rewrite (refine_full w parms Hw Hp Hlod). cbn [trace snd].
  rewrite added_primitives_cons, added_primitives_app.
  by rewrite (no_primitive_added _ (optional_blocks_calls w)).
Qed.

(** *** The list the blocks build *)

Lemma built_positions w :
  get (result (optional_blocks w)) "P"
  = Some (GusdGT_VtArray (usdPoints_read w) GT_TYPE_POINT).
Proof.
  unfold optional_blocks. cbn [result fst].
  rewrite refine_widths_frame, refine_velocities_frame, refine_normals_frame by done.
  done.
Qed.

Lemma built_normals w v :
  attr_valid (GetNormalsAttr (m_usdPointsForRead w)) = true →
  HasAuthoredValueOpinion (GetNormalsAttr (m_usdPointsForRead w)) = true →
  attr_value (GetNormalsAttr (m_usdPointsForRead w)) (m_time w) = Some (VtVec3fArray v) →
  (length v < length (usdPoints_read w) →
     short_warning w "normals" (length v) ∈ trace (optional_blocks w)
     ∧ get (result (optional_blocks w)) "N" = None)
  ∧ (length (usdPoints_read w) ≤ length v →
     get (result (optional_blocks w)) "N" = Some (GusdGT_VtArray v GT_TYPE_NORMAL)).
Proof.
  intros Hv Ha Hval. unfold optional_blocks, short_warning. cbn [result trace fst snd].
  rewrite refine_widths_frame, refine_velocities_frame by done.
  rewrite (refine_normals_authored _ _ _ _ _ v Hv Ha Hval).
  case_decide; (split; [intros ?|intros ?]); try lia; cbn [result trace fst snd].
  - split; [in_trace|reflexivity].
  - apply get_addAttribute_eq.
Qed.

Lemma built_velocities w v :
  attr_valid (GetVelocitiesAttr (m_usdPointsForRead w)) = true →
  HasAuthoredValueOpinion (GetVelocitiesAttr (m_usdPointsForRead w)) = true →
  attr_value (GetVelocitiesAttr (m_usdPointsForRead w)) (m_time w) = Some (VtVec3fArray v) →
  (length v < length (usdPoints_read w) →
     short_warning w "velocities" (length v) ∈ trace (optional_blocks w)
     ∧ get (result (optional_blocks w)) "v" = None)
  ∧ (length (usdPoints_read w) ≤ length v →
     get (result (optional_blocks w)) "v" = Some (GusdGT_VtArray v GT_TYPE_VECTOR)).
Proof.
  intros Hv Ha Hval. unfold optional_blocks, short_warning. cbn [result trace fst snd].
  rewrite refine_widths_frame by done.
  rewrite (refine_velocities_authored _ _ _ _ _ v Hv Ha Hval).
  case_decide; (split; [intros ?|intros ?]); try lia; cbn [result trace fst snd].
  - split.
    + in_trace.
    + by rewrite refine_normals_frame.
  - apply get_addAttribute_eq.
Qed.

Lemma built_widths w v :
  attr_valid (GetWidthsAttr (m_usdPointsForRead w)) = true →
  HasAuthoredValueOpinion (GetWidthsAttr (m_usdPointsForRead w)) = true →
  attr_value (GetWidthsAttr (m_usdPointsForRead w)) (m_time w) = Some (VtFloatArray v) →
  (length v < length (usdPoints_read w) →
     short_warning w "widths" (length v) ∈ trace (optional_blocks w)
     ∧ get (result (optional_blocks w)) "pscale" = None)
  ∧ (length (usdPoints_read w) ≤ length v →
     get (result (optional_blocks w)) "pscale"
     = Some (GT_Real32Array (map F32.mul_half v) 1)).
Proof.
  intros Hv Ha Hval. unfold optional_blocks, short_warning. cbn [result trace fst snd].
  rewrite (refine_widths_authored _ _ _ _ _ v Hv Ha Hval).
  case_decide; (split; [intros ?|intros ?]); try lia; cbn [result trace fst snd].
  - split.
    + in_trace.
    + by rewrite refine_velocities_frame, refine_normals_frame.
  - apply get_addAttribute_eq.
Qed.

(** *** The values the blocks fetch *)

Lemma refine_normals_reads w g pos buf attrs :
  attributes_read (trace (refine_normals w g pos buf attrs))
  = if is_authored g UsdGeomTokens.normals then [UsdGeomTokens.normals] else [].
Proof.
  unfold refine_normals, is_authored, GetNormalsAttr.
  unfold readVec3f, warn, bind, emit, ret, trace.
  destruct (attr_valid _ && HasAuthoredValueOpinion _); simpl; [|done].
  by case_decide.
Qed.

Lemma refine_velocities_reads w g pos buf attrs :
  attributes_read (trace (refine_velocities w g pos buf attrs))
  = if is_authored g UsdGeomTokens.velocities then [UsdGeomTokens.velocities] else [].
Proof.
  unfold refine_velocities, is_authored, GetVelocitiesAttr.
  unfold readVec3f, warn, bind, emit, ret, trace.
  destruct (attr_valid _ && HasAuthoredValueOpinion _); simpl; [|done].
  by case_decide.
Qed.

Lemma refine_widths_reads w g pos (fbuf : VtArray fpreal32) attrs :
  attributes_read (trace (refine_widths w g pos fbuf attrs))
  = if is_authored g UsdGeomTokens.widths then [UsdGeomTokens.widths] else [].
Proof.
  unfold refine_widths, is_authored, GetWidthsAttr.
  unfold readFloat, warn, bind, emit, ret, trace.
  destruct (attr_valid _ && HasAuthoredValueOpinion _); simpl; [|done].
  by case_decide.
Qed.

Lemma attributes_read_blocks w :
  attributes_read (trace (optional_blocks w))
  = filter (fun name => is_authored (m_usdPointsForRead w) name = true)
      [UsdGeomTokens.normals; UsdGeomTokens.velocities; UsdGeomTokens.widths].
Proof.
  unfold optional_blocks. cbn [trace snd]. rewrite !attributes_read_app.
  rewrite refine_normals_reads, refine_velocities_reads, refine_widths_reads.
  rewrite !filter_cons, filter_nil.
  destruct (is_authored _ UsdGeomTokens.normals);
    destruct (is_authored _ UsdGeomTokens.velocities);
    destruct (is_authored _ UsdGeomTokens.widths); reflexivity.
Qed.

End ReadFacts.

(** ** Claims about the read path *)

Section ReadClaims.

Context {base_state : Type}.
Context {GT_RefineParms : Type}.
Variable useViewportLOD : option GT_RefineParms -> bool.
Variable loadPrimvars :
  UsdTimeCode -> option GT_RefineParms -> nat -> nat -> nat -> string ->
  PrimvarTargets -> PrimvarTargets.

Implicit Types (w : GusdPointsWrapper base_state) (parms : option GT_RefineParms).

Local Abbreviation refine := (refine useViewportLOD loadPrimvars).
Local Abbreviation optional_blocks := (@optional_blocks base_state GT_RefineParms).

(** With the wrapper valid, positions present and the viewport shortcut
    off, [refine] returns success and, for each of normals, velocities and
    widths that is authored and whose fetch delivers an array at the
    wrapper's time: if the array is shorter than the position array, the
    matching warning is emitted and the name is absent from the point
    attribute list that [refine] builds; otherwise the name is bound in
    that list to the array (halved for widths).  The one primitive produced
    carries the lists that [loadPrimvars] returns for the built list. *)
Lemma fetched_optional_attributes w parms :
  isValid w = true →
  attr_valid (GetPointsAttr (m_usdPointsForRead w)) = true →
  useViewportLOD parms = false →
  let r := refine w parms in
  let g := m_usdPointsForRead w in
  let n := length (usdPoints_read w) in
  result r = true
  ∧ ∃ built,
      lists_before_primvars (trace r) = [built]
      ∧ (let loaded :=
           loadPrimvars (m_time w) parms 0 n 0 (GetPath (GetPrim g)) (primvar_targets built) in
         added_primitives (trace r) =
           [GT_PrimPointMesh (default built (tgt_point loaded))
                             (default GT_AttributeList_new (tgt_constant loaded))])
      ∧ (∀ v, attr_valid (GetNormalsAttr g) = true →
              HasAuthoredValueOpinion (GetNormalsAttr g) = true →
              attr_value (GetNormalsAttr g) (m_time w) = Some (VtVec3fArray v) →
              (length v < n →
                 short_warning w "normals" (length v) ∈ trace r ∧ get built "N" = None)
              ∧ (n ≤ length v →
                 get built "N" = Some (GusdGT_VtArray v GT_TYPE_NORMAL)))
      ∧ (∀ v, attr_valid (GetVelocitiesAttr g) = true →
              HasAuthoredValueOpinion (GetVelocitiesAttr g) = true →
              attr_value (GetVelocitiesAttr g) (m_time w) = Some (VtVec3fArray v) →
              (length v < n →
                 short_warning w "velocities" (length v) ∈ trace r ∧ get built "v" = None)
              ∧ (n ≤ length v →
                 get built "v" = Some (GusdGT_VtArray v GT_TYPE_VECTOR)))
      ∧ (∀ v, attr_valid (GetWidthsAttr g) = true →
              HasAuthoredValueOpinion (GetWidthsAttr g) = true →
              attr_value (GetWidthsAttr g) (m_time w) = Some (VtFloatArray v) →
              (length v < n →
                 short_warning w "widths" (length v) ∈ trace r ∧ get built "pscale" = None)
              ∧ (n ≤ length v →
                 get built "pscale" = Some (GT_Real32Array (map F32.mul_half v) 1))).
Proof.
  intros Hw Hp Hlod r g n.
  assert (Htr : ∀ c, c ∈ trace (optional_blocks w) → c ∈ trace r).
  { intros c Hc. subst r. rewrite (refine_full _ _ w parms Hw Hp Hlod).
    cbn [trace snd]. in_trace. }
  split; [subst r; by rewrite (refine_full _ _ w parms Hw Hp Hlod)|].
  exists (result (optional_blocks w)).
  split; [by apply refine_full_lists|].
  split; [by apply refine_full_added|].
  split; [|split].
  - intros v Hv Ha Hval. destruct (built_normals (GT_RefineParms := GT_RefineParms) w v Hv Ha Hval) as [Hs He].
    split; [|done]. intros Hl. destruct (Hs Hl). auto.
  - intros v Hv Ha Hval. destruct (built_velocities (GT_RefineParms := GT_RefineParms) w v Hv Ha Hval) as [Hs He].
    split; [|done]. intros Hl. destruct (Hs Hl). auto.
  - intros v Hv Ha Hval. destruct (built_widths (GT_RefineParms := GT_RefineParms) w v Hv Ha Hval) as [Hs He].
    split; [|done]. intros Hl. destruct (Hs Hl). auto.
Qed.

(** C5.  [refine] returns false exactly when the wrapper is invalid
    (neither handle is set) or the points attribute is invalid; it then adds
    nothing to the refiner.  In every other case it returns true and adds
    exactly one point-mesh primitive.  [refine] is a total function: no
    other outcome exists. *)
Theorem C5_refine_result w parms :
  let r := refine w parms in
  (isValid w = false ↔
     schema_valid (m_usdPointsForRead w) = false
     ∧ schema_valid (m_usdPointsForWrite w) = false)
  ∧ (result r = false ↔
       isValid w = false ∨ attr_valid (GetPointsAttr (m_usdPointsForRead w)) = false)
  ∧ (result r = false → added_primitives (trace r) = [])
  ∧ (result r = true →
       ∃ points detail, added_primitives (trace r) = [GT_PrimPointMesh points detail]).
Proof.
  intros r. split.
  { unfold isValid. rewrite orb_false_iff. tauto. }
  destruct (isValid w) eqn:Hw;
    [destruct (attr_valid (GetPointsAttr (m_usdPointsForRead w))) eqn:Hp|].
  - destruct (useViewportLOD parms) eqn:Hlod.
    + subst r. rewrite (refine_viewport _ _ w parms Hw Hp Hlod). cbn.
      split; [split; [done|intros [?|?]; done]|]. split; [done|]. eauto.
    + assert (Hr : result r = true).
      { subst r. by rewrite (refine_full _ _ w parms Hw Hp Hlod). }
      rewrite Hr. split; [split; [done|intros [?|?]; done]|]. split; [done|].
      intros _. subst r. rewrite (refine_full_added _ _ w parms Hw Hp Hlod). eauto.
  - destruct (refine_fails useViewportLOD loadPrimvars w parms (or_intror Hp)) as [Hr Ha].
    fold r in Hr, Ha. rewrite Hr. split; [split; auto|]. split; [done|]. done.
  - destruct (refine_fails useViewportLOD loadPrimvars w parms (or_introl Hw)) as [Hr Ha].
    fold r in Hr, Ha. rewrite Hr. split; [split; auto|]. split; [done|]. done.
Qed.

End ReadClaims.

(** ** The attribute filter *)







(** ** The write path *)

Section WriteFacts.

Context {base_state UT_Matrix4D GfMatrix4d GusdSimpleXformCache : Type}.
Variable GetParent : UsdPrim -> UsdPrim.
Variable computeTransform :
  UsdPrim -> UsdTimeCode -> UT_Matrix4D -> GusdSimpleXformCache ->
  GfMatrix4d * GusdSimpleXformCache.
Variable getExtentsArray : GT_Primitive -> option GT_DataArray.
Variable s_ownerToUsdInterp : GT_Owner -> TfToken.
Variable base_updateFromGTPrim :
  GT_Primitive -> UT_Matrix4D -> GusdContext -> GusdSimpleXformCache ->
  bool * GusdSimpleXformCache.

Implicit Types (w : GusdPointsWrapper base_state) (src : GT_Primitive).
Implicit Types (xf : UT_Matrix4D) (ctxt : GusdContext) (cache : GusdSimpleXformCache).

Local Abbreviation updateFromGTPrim :=
  (updateFromGTPrim GetParent computeTransform getExtentsArray s_ownerToUsdInterp
     base_updateFromGTPrim).

(** The calls of a run on a valid write prim, in program order. *)
Lemma updateFromGTPrim_trace w src xf ctxt cache :
  schema_valid (m_usdPointsForWrite w) = true →
  let t := time ctxt in
  let xform :=
    (computeTransform (GetParent (GetPrim (m_usdPointsForWrite w))) t xf cache).1 in
  trace (updateFromGTPrim w src xf ctxt cache) =
    [UpdateAttribute GT_OWNER_INVALID "extents" (getExtentsArray src) UsdGeomTokens.extent t;
     UpdateTransform xform t (bool_decide (granularity ctxt = PER_FRAME))]
    ++ (if negb (getOverGeo ctxt src)
           && negb (bool_decide (purpose ctxt = UsdGeomTokens.default_))
        then [AttrSet UsdGeomTokens.purpose (purpose ctxt)] else [])
    ++ (if bool_decide (granularity ctxt = PER_FRAME)
        then [UpdateVisibility src t] else [])
    ++ [UpdateAttribute (findAttribute src "P").2 "P" (findAttribute src "P").1
          UsdGeomTokens.points t;
        UpdateAttribute (findAttribute src "N").2 "N" (findAttribute src "N").1
          UsdGeomTokens.normals t;
        UpdateAttribute (findAttribute src "v").2 "v" (findAttribute src "v").1
          UsdGeomTokens.velocities t;
        UpdateAttribute (widths_source src).2 "widths" (widths_source src).1
          UsdGeomTokens.widths t]
    ++ (match getPointAttributes src with
        | Some pointAttrs =>
            [UpdatePrimvars pointAttrs (passthrough_filter ctxt GT_OWNER_POINT)
               UsdGeomTokens.vertex t]
        | None => []
        end)
    ++ (match getDetailAttributes src with
        | Some constAttrs =>
            [UpdatePrimvars constAttrs (passthrough_filter ctxt GT_OWNER_CONSTANT)
               UsdGeomTokens.constant t]
        | None => []
        end)
    ++ (match (findAttribute src "Cd").1 with
        | Some Cd =>
            [UpdatePrimvars [("displayColor", Cd)]
               (setActiveOwners (GusdGT_AttrFilter_new "*") [(findAttribute src "Cd").2])
               (s_ownerToUsdInterp (findAttribute src "Cd").2) t]
        | None => []
        end)
    ++ [BaseUpdate src xf ctxt].
Proof.
  intros Hw t xform. subst t xform. unfold updateFromGTPrim. rewrite Hw.
  cbn [negb]. fold (passthrough_filter ctxt GT_OWNER_POINT).
  destruct (computeTransform _ _ _ _) as [xform cache'].
  destruct (findAttribute src "P") as [aP oP], (findAttribute src "N") as [aN oN],
    (findAttribute src "v") as [av ov], (widths_source src) as [aw ow],
    (findAttribute src "Cd") as [aCd oCd].
  unfold updateAttributeFromGTPrim, updateTransformFromGTPrim,
    updateVisibilityFromGTPrim, updatePrimvarFromGTPrim, passthrough_filter.
  unfold bind, emit, ret, trace.
  destruct (negb (getOverGeo ctxt src) && _), (bool_decide (granularity ctxt = PER_FRAME)),
    (getPointAttributes src), (getDetailAttributes src), aCd; reflexivity.
Qed.

Lemma updateFromGTPrim_invalid w src xf ctxt cache :
  schema_valid (m_usdPointsForWrite w) = false →
  updateFromGTPrim w src xf ctxt cache = ((false, cache), []).
Proof. intros Hw. unfold updateFromGTPrim. by rewrite Hw. Qed.

Lemma widths_updates w src xf ctxt cache :
  schema_valid (m_usdPointsForWrite w) = true →
  updates_of UsdGeomTokens.widths (trace (updateFromGTPrim w src xf ctxt cache))
  = [((widths_source src).2, "widths", (widths_source src).1, time ctxt)].
Proof.
  intros Hw. rewrite (updateFromGTPrim_trace w src xf ctxt cache Hw).
  unfold updates_of.
  destruct (negb (getOverGeo ctxt src) && _), (bool_decide (granularity ctxt = PER_FRAME)),
    (getPointAttributes src), (getDetailAttributes src), (findAttribute src "Cd").1;
    reflexivity.
Qed.

(** Every call of a run is one of those listed by [updateFromGTPrim_trace]. *)
Ltac split_calls H :=
  repeat (apply elem_of_app in H as [H|H]);
  repeat match type of H with
         | _ ∈ (if ?b then _ else _) => destruct b eqn:?
         | _ ∈ (match ?o with Some _ => _ | None => _ end) => destruct o eqn:?
         end;
  repeat (apply elem_of_cons in H as [H|H]);
  try (by apply elem_of_nil in H);
  try discriminate H.

(** ** Claims about the write path *)

(** C4, amended.  [updateFromGTPrim] sets the purpose attribute only when
    writing newly authored geometry, never when overriding.  The visibility
    update is made exactly when the write prim is valid and the context's
    granularity is per-frame, whether the geometry is new or overridden. *)
Theorem C4_purpose_and_visibility w src xf ctxt cache :
  let tr := trace (updateFromGTPrim w src xf ctxt cache) in
  (∀ v, AttrSet UsdGeomTokens.purpose v ∈ tr → getOverGeo ctxt src = false)
  ∧ (∀ s t, UpdateVisibility s t ∈ tr ↔
            schema_valid (m_usdPointsForWrite w) = true
            ∧ granularity ctxt = PER_FRAME ∧ s = src ∧ t = time ctxt).
Proof.
  intros tr. subst tr.
  destruct (schema_valid (m_usdPointsForWrite w)) eqn:Hw.
  - rewrite (updateFromGTPrim_trace w src xf ctxt cache Hw). split.
    + intros v H. split_calls H.
      match goal with Hc : _ && _ = true |- _ => apply andb_true_iff in Hc as [Hc _] end.
      by apply negb_true_iff.
    + intros s t. split.
      * intros H. split_calls H. injection H as -> ->.
        match goal with Hc : bool_decide _ = true |- _ => apply bool_decide_eq_true in Hc end.
        done.
      * intros (_ & Hg & -> & ->). rewrite (bool_decide_eq_true_2 _ Hg). in_trace.
  - rewrite (updateFromGTPrim_invalid w src xf ctxt cache Hw). cbn [trace snd]. split.
    + intros v H. by apply elem_of_nil in H.
    + intros s t. split; [intros H; by apply elem_of_nil in H|by intros [? _]].
Qed.

(** C6.  When the write handle is invalid, [updateFromGTPrim] returns
    false, leaves the transform cache as it was, and makes no call at all:
    nothing is written to the stage. *)
Theorem C6_undefined_write_target w src xf ctxt cache :
  schema_valid (m_usdPointsForWrite w) = false →
  result (updateFromGTPrim w src xf ctxt cache) = (false, cache)
  ∧ trace (updateFromGTPrim w src xf ctxt cache) = [].
Proof. intros Hw. by rewrite (updateFromGTPrim_invalid w src xf ctxt cache Hw). Qed.


(** C10.  [updateFromGTPrim] sets an attribute directly in one case only:
    the purpose attribute receives the context's purpose when the write
    prim is valid, the geometry is newly authored and the context's purpose
    differs from the default purpose token.  With the default purpose the
    purpose attribute is not written, also for new geometry. *)
Theorem C10_default_purpose_not_authored w src xf ctxt cache :
  ∀ a v,
    AttrSet a v ∈ trace (updateFromGTPrim w src xf ctxt cache) ↔
      schema_valid (m_usdPointsForWrite w) = true
      ∧ getOverGeo ctxt src = false
      ∧ purpose ctxt ≠ UsdGeomTokens.default_
      ∧ a = UsdGeomTokens.purpose ∧ v = purpose ctxt.
Proof.
  intros a v. destruct (schema_valid (m_usdPointsForWrite w)) eqn:Hw.
  - rewrite (updateFromGTPrim_trace w src xf ctxt cache Hw). split.
    + intros H. split_calls H. injection H as -> ->.
      match goal with Hc : _ && _ = true |- _ => apply andb_true_iff in Hc as [Ho Hp] end.
      apply negb_true_iff in Ho. apply negb_true_iff, bool_decide_eq_false in Hp. done.
    + intros (_ & Ho & Hp & -> & ->). rewrite Ho. cbn [negb andb].
      rewrite (bool_decide_eq_false_2 _ Hp). cbn [negb]. in_trace.
  - rewrite (updateFromGTPrim_invalid w src xf ctxt cache Hw). cbn [trace snd]. split.
    + intros H. by apply elem_of_nil in H.
    + by intros [? _].
Qed.

End WriteFacts.

(** ** Redefinition *)

Section DefineClaims.

Context {base_state UsdStage : Type}.
Variable OverridePrim : UsdStage -> SdfPath -> UsdPrim * UsdStage.
Variable UsdGeomPoints_Define : UsdStage -> SdfPath -> UsdGeomPoints * UsdStage.
Variable clearCaches : base_state -> base_state.

Local Abbreviation initUsdPrim := (initUsdPrim UsdStage OverridePrim UsdGeomPoints_Define).
Local Abbreviation redefine :=
  (redefine UsdStage OverridePrim UsdGeomPoints_Define clearCaches).

(** C9.  [redefine] returns true for every stage, path, context and source
    primitive.  The result of [initUsdPrim] is discarded: it equals the
    validity of the write handle that [redefine] leaves in the wrapper, so
    when defining or overriding fails, [redefine] still reports success and
    the wrapper has no valid write prim. *)
Theorem C9_redefine_reports_success (w : GusdPointsWrapper base_state) (stage : UsdStage)
    (path : SdfPath) (ctxt : GusdContext) (src : GT_Primitive) :
  let after := redefine w stage path ctxt src in
  let init := initUsdPrim w stage path (getOverGeo ctxt src) in
  after.1.1 = true
  ∧ schema_valid (m_usdPointsForWrite after.1.2) = init.1.1
  ∧ m_usdPointsForWrite after.1.2 = m_usdPointsForWrite init.1.2
  ∧ after.2 = init.2
  ∧ (init.1.1 = false →
       after.1.1 = true ∧ schema_valid (m_usdPointsForWrite after.1.2) = false).
Proof.
  intros after init. subst after init. unfold redefine, initUsdPrim.
  destruct (getOverGeo ctxt src); cbn.
  - destruct (OverridePrim stage path) as [prim stage']. cbn. repeat split; auto.
  - destruct (UsdGeomPoints_Define stage path) as [g stage']. cbn. repeat split; auto.
Qed.

End DefineClaims.

(** ** Concrete runs *)

(** *** The read path on the scene's point cloud *)

Example refine_write_only_wrapper :
  Scene.refine Scene.writer None = (false, [TF_WARN "Invalid point attribute" []]).
Proof. reflexivity. Qed.

Example refine_unset_wrapper : Scene.refine Scene.unset None = (false, []).
Proof. reflexivity. Qed.

(** *** The write path *)

Example explicit_widths_written_unscaled :
  updates_of UsdGeomTokens.widths
    (trace (Scene.updateFromGTPrim Scene.writer Scene.with_widths tt
              (Scene.context ONE_FILE "default" false) tt))
  = [(GT_OWNER_POINT, "widths", Some (Scene.scalars [F32.one; F32.one]), TimeSample 1)].
Proof. reflexivity. Qed.

(** C2 as stated fails on a source that has no [widths] and a [pscale] of
    tuple size three: the array handed to the widths update holds the
    [pscale] values as they are, not doubled. *)
Lemma C2_counterexample :
  (findAttribute Scene.with_vector_pscale "widths").1 = None
  ∧ (findAttribute Scene.with_vector_pscale "pscale").1
    = Some (GT_Real32Array [F32.half; F32.half; F32.half] 3)
  ∧ ∃ written,
      updates_of UsdGeomTokens.widths
        (trace (Scene.updateFromGTPrim Scene.writer Scene.with_vector_pscale tt
                  (Scene.context ONE_FILE "default" false) tt))
        = [(GT_OWNER_POINT, "widths", Some written, TimeSample 1)]
      ∧ flat_data written = [F32.half; F32.half; F32.half]
      ∧ flat_data written ≠ map F32.mul_two [F32.half; F32.half; F32.half].
Proof.
  split; [reflexivity|]. split; [reflexivity|].
  exists (GT_Real32Array [F32.half; F32.half; F32.half] 3).
  split; [reflexivity|]. split; [reflexivity|].
  vm_compute. discriminate.
Qed.

(** C4 as stated fails in override mode with per-frame granularity: the
    visibility update is made although the geometry is not newly authored. *)
Lemma C4_counterexample :
  getOverGeo (Scene.context PER_FRAME "render" true) Scene.with_pscale = true
  ∧ UpdateVisibility Scene.with_pscale (TimeSample 1)
      ∈ trace (Scene.updateFromGTPrim Scene.writer Scene.with_pscale tt
                 (Scene.context PER_FRAME "render" true) tt).
Proof.
  split; [reflexivity|].
  vm_compute. repeat constructor.
Qed.

Lemma C6_undefined_write_target_witness :
  schema_valid (m_usdPointsForWrite Scene.reader) = false
  ∧ result (Scene.updateFromGTPrim Scene.reader Scene.with_pscale tt
              (Scene.context PER_FRAME "render" false) tt) = (false, tt)
  ∧ trace (Scene.updateFromGTPrim Scene.reader Scene.with_pscale tt
             (Scene.context PER_FRAME "render" false) tt) = [].
Proof.
  split; [reflexivity|].
  apply (C6_undefined_write_target (fun p => p) Scene.computeTransform
           Scene.getExtentsArray Scene.s_ownerToUsdInterp Scene.base_updateFromGTPrim
           Scene.reader Scene.with_pscale tt (Scene.context PER_FRAME "render" false) tt).
  reflexivity.
Defined.

Example passthrough_of_point_attributes :
  primvars_written
    [("P", Scene.P2); ("N", Scene.P2); ("v", Scene.P2);
     ("pscale", Scene.scalars [F32.one; F32.one]);
     ("widths", Scene.scalars [F32.one; F32.one]); ("visible", Scene.scalars [F32.one]);
     ("usdactive", Scene.scalars [F32.one]);
     ("temperature", Scene.scalars [F32.one; F32.half])]
    (passthrough_filter (Scene.context ONE_FILE "default" false) GT_OWNER_POINT)
  = ["temperature"].
Proof. vm_compute. reflexivity. Qed.

Example passthrough_of_detail_attributes :
  primvars_written
    [("visible", Scene.scalars [F32.one]); ("usdactive", Scene.scalars [F32.one]);
     ("shop_materialpath", Scene.scalars [F32.one])]
    (passthrough_filter (Scene.context ONE_FILE "default" false) GT_OWNER_CONSTANT)
  = ["shop_materialpath"].
Proof. vm_compute. reflexivity. Qed.

(** *** Redefinition at a path that cannot be defined *)

Example redefine_after_failed_define :
  let after :=
    Scene.redefine Scene.writer [] "cloud" (Scene.context ONE_FILE "default" false)
      Scene.with_pscale in
  after.1.1 = true ∧ schema_valid (m_usdPointsForWrite after.1.2) = false ∧ after.2 = [].
Proof. repeat split. Qed.

(** * Further properties of the code *)

(** ** Scaling of widths *)

Section ScalingFacts.

Local Open Scope Z_scope.

(** Rounding overflows when the exponent of the rounded mantissa is above
    the largest one of the format. *)
Lemma binary_round_aux_overflow (prec emax : Z) (s : bool) (M M' : positive) (E k : Z) :
  0 <= k →
  Zpos (digits2_pos M') = prec + k →
  F32.shifted k M' = Build_shr_record (Zpos M) false false →
  Zpos (digits2_pos M) = prec →
  emin prec emax <= E → emax - prec < E →
  binary_round_aux prec emax s (Zpos M') (E - k) loc_Exact = S754_infinity s.
Proof.
  intros Hk Hdig Hshr HM HE Hover. unfold binary_round_aux, shr_fexp.
  cbn [Zdigits2 shr_record_of_loc]. rewrite Hdig.
  replace (prec + k + (E - k)) with (prec + E) by lia.
  rewrite fexp_canonical by lia.
  replace (E - (E - k)) with k by lia.
  assert (Hs : shr (Build_shr_record (Zpos M') false false) (E - k) k
               = (Build_shr_record (Zpos M) false false, E)).
  { unfold shr. unfold F32.shifted in Hshr. destruct k as [|p|p]; try lia.
    - rewrite Hshr. f_equal. lia.
    - rewrite Hshr. f_equal. lia. }
  rewrite Hs. cbn [shr_m loc_of_shr_record round_nearest_even Zdigits2 shr_record_of_loc].
  rewrite HM, fexp_canonical by lia. rewrite Z.sub_diag. cbn [shr shr_m].
  destruct (Z.leb_spec E (emax - prec)); [lia|reflexivity].
Qed.

(** X1.  A width that scales exactly (a zero, an infinity, or a normal
    number from [2^-125] up) is restored by the write path's doubling
    after the read path's halving.  Nothing is said about NaN. *)
Theorem X1_halve_then_double_restores (x : fpreal32) :
  scales_exactly x = true → F32.mul_two (F32.mul_half x) = x.
Proof.
  destruct x as [s|s| |s m e]; intros Hx.
  - by destruct s.
  - by destruct s.
  - discriminate Hx.
  - cbn [scales_exactly] in Hx.
    apply andb_true_iff in Hx as [Hx He2]. apply andb_true_iff in Hx as [Hd He1].
    apply Pos.eqb_eq in Hd. apply Z.leb_le in He1, He2.
    by apply mul_two_mul_half.
Qed.

(** X2.  On a normal number the read path's [* .5] only lowers the exponent
    by one and the write path's [2.0 *] only raises it by one, as long as
    the result stays a normal finite number: neither scaling rounds. *)
Theorem X2_scaling_moves_the_exponent_only (s : bool) (m : positive) (e : Z) :
  digits2_pos m = 24%positive → -148 <= e <= 103 →
  F32.mul_half (S754_finite s m e) = S754_finite s m (e - 1)
  ∧ F32.mul_two (S754_finite s m e) = S754_finite s m (e + 1).
Proof.
  intros Hd He. split; [apply mul_half_exact|apply mul_two_exact]; (done || lia).
Qed.

(** X3.  Doubling a [pscale] value of the top binade (from [2^127] up)
    overflows: the width written is an infinity of the same sign. *)
Theorem X3_doubling_overflows (s : bool) (m : positive) :
  digits2_pos m = 24%positive →
  F32.mul_two (S754_finite s m 104) = S754_infinity s.
Proof.
  intros Hd. unfold F32.mul_two, F32.prec, F32.emax.
  change F32.two with (S754_finite false 8388608 (-22)).
  cbn [SFmul xorb].
  change (8388608 * m)%positive with (F32.shl m 23).
  change (-22 + 104) with (105 - 23).
  apply (binary_round_aux_overflow 24 128 s m);
    first [ unfold emin; lia
          | rewrite digits2_shl, Hd; reflexivity
          | rewrite Hd; reflexivity
          | vm_compute; reflexivity ].
Qed.

End ScalingFacts.

Lemma X1_halve_then_double_restores_witness :
  scales_exactly F32.one = true ∧ F32.mul_two (F32.mul_half F32.one) = F32.one.
Proof.
  split; [reflexivity|]. apply X1_halve_then_double_restores. reflexivity.
Defined.

Lemma X2_scaling_moves_the_exponent_only_witness :
  (digits2_pos 8388608 = 24%positive ∧ (-148 <= -23 <= 103)%Z)
  ∧ F32.mul_half (S754_finite false 8388608 (-23)) = S754_finite false 8388608 (-23 - 1)
  ∧ F32.mul_two (S754_finite false 8388608 (-23)) = S754_finite false 8388608 (-23 + 1).
Proof.
  split; [split; [reflexivity|lia]|].
  apply X2_scaling_moves_the_exponent_only; [reflexivity|lia].
Defined.

Lemma X3_doubling_overflows_witness :
  digits2_pos 8388608 = 24%positive
  ∧ F32.mul_two (S754_finite true 8388608 104) = S754_infinity true.
Proof.
  split; [reflexivity|]. apply X3_doubling_overflows. reflexivity.
Defined.

(** ** The read path: diagnostics, names and unreadable attributes *)

Lemma addAttribute_fresh (l : GT_AttributeList) name d r :
  get l name = None → addAttribute l name d r = l ++ [(name, d)].
Proof.
  induction l as [|[n d'] l IH]; simpl; [done|].
  destruct (decide (n = name)); [done|]. intros H. by rewrite IH.
Qed.

Lemma warnings_app {P : Type} (tr1 tr2 : list (ReadCall P)) :
  warnings (tr1 ++ tr2) = warnings tr1 ++ warnings tr2.
Proof. apply omap_app. Qed.

Section ReadExtras.

Context {base_state GT_RefineParms : Type}.
Variable useViewportLOD : option GT_RefineParms -> bool.
Variable loadPrimvars :
  UsdTimeCode -> option GT_RefineParms -> nat -> nat -> nat -> string ->
  PrimvarTargets -> PrimvarTargets.

Implicit Types (w : GusdPointsWrapper base_state) (g : UsdGeomPoints).
Implicit Types (pos buf : VtArray GfVec3f) (attrs : GT_AttributeList).

Local Abbreviation refine := (refine useViewportLOD loadPrimvars).
Local Abbreviation refine_normals := (@refine_normals base_state GT_RefineParms).
Local Abbreviation refine_velocities := (@refine_velocities base_state GT_RefineParms).
Local Abbreviation refine_widths := (@refine_widths base_state GT_RefineParms).
Local Abbreviation optional_blocks := (@optional_blocks base_state GT_RefineParms).

(** *** Each block on a valid and authored attribute, readable or not *)

Lemma refine_normals_fetch w g pos buf attrs :
  is_authored g UsdGeomTokens.normals = true →
  let got := Get_Vec3fArray (GetNormalsAttr g) buf (m_time w) in
  refine_normals w g pos buf attrs =
    if decide (length got < length pos) then
      ((got, attrs),
       [UsdGet UsdGeomTokens.normals (m_time w);
        TF_WARN (not_enough "normals")
          [ArgText (GetPath (GetPrim g)); ArgSize (length pos); ArgSize (length got)]])
    else
      ((got, addAttribute attrs "N" (GusdGT_VtArray got GT_TYPE_NORMAL) true),
       [UsdGet UsdGeomTokens.normals (m_time w)]).
Proof.
  intros Ha got. unfold is_authored in Ha. unfold refine_normals, readVec3f.
  fold (GetNormalsAttr g) in Ha. rewrite Ha.
  unfold bind, warn, emit, ret; simpl. fold got. by case_decide.
Qed.

Lemma refine_velocities_fetch w g pos buf attrs :
  is_authored g UsdGeomTokens.velocities = true →
  let got := Get_Vec3fArray (GetVelocitiesAttr g) buf (m_time w) in
  refine_velocities w g pos buf attrs =
    if decide (length got < length pos) then
      ((got, attrs),
       [UsdGet UsdGeomTokens.velocities (m_time w);
        TF_WARN (not_enough "velocities")
          [ArgText (GetPath (GetPrim g)); ArgSize (length pos); ArgSize (length got)]])
    else
      ((got, addAttribute attrs "v" (GusdGT_VtArray got GT_TYPE_VECTOR) true),
       [UsdGet UsdGeomTokens.velocities (m_time w)]).
Proof.
  intros Ha got. unfold is_authored in Ha. unfold refine_velocities, readVec3f.
  fold (GetVelocitiesAttr g) in Ha. rewrite Ha.
  unfold bind, warn, emit, ret; simpl. fold got. by case_decide.
Qed.

Lemma refine_widths_fetch w g pos (fbuf : VtArray fpreal32) attrs :
  is_authored g UsdGeomTokens.widths = true →
  let got := Get_FloatArray (GetWidthsAttr g) fbuf (m_time w) in
  refine_widths w g pos fbuf attrs =
    if decide (length got < length pos) then
      ((got, attrs),
       [UsdGet UsdGeomTokens.widths (m_time w);
        TF_WARN (not_enough "widths")
          [ArgText (GetPath (GetPrim g)); ArgSize (length pos); ArgSize (length got)]])
    else
      ((got, addAttribute attrs "pscale" (GT_Real32Array (map F32.mul_half got) 1) true),
       [UsdGet UsdGeomTokens.widths (m_time w)]).
Proof.
  intros Ha got. unfold is_authored in Ha. unfold refine_widths, readFloat.
  fold (GetWidthsAttr g) in Ha. rewrite Ha.
  unfold bind, warn, emit, ret; simpl. fold got. case_decide; [done|].
  by rewrite halve_into_map.
Qed.

Lemma refine_normals_skip w g pos buf attrs :
  is_authored g UsdGeomTokens.normals = false →
  refine_normals w g pos buf attrs = ((buf, attrs), []).
Proof.
  intros Ha. unfold is_authored in Ha. unfold refine_normals.
  fold (GetNormalsAttr g) in Ha. by rewrite Ha.
Qed.

Lemma refine_velocities_skip w g pos buf attrs :
  is_authored g UsdGeomTokens.velocities = false →
  refine_velocities w g pos buf attrs = ((buf, attrs), []).
Proof.
  intros Ha. unfold is_authored in Ha. unfold refine_velocities.
  fold (GetVelocitiesAttr g) in Ha. by rewrite Ha.
Qed.

Lemma refine_widths_skip w g pos (fbuf : VtArray fpreal32) attrs :
  is_authored g UsdGeomTokens.widths = false →
  refine_widths w g pos fbuf attrs = ((fbuf, attrs), []).
Proof.
  intros Ha. unfold is_authored in Ha. unfold refine_widths.
  fold (GetWidthsAttr g) in Ha. by rewrite Ha.
Qed.

(** *** Diagnostics of the blocks *)

Lemma optional_blocks_warnings w : Forall (short_of w) (trace (optional_blocks w)).
Proof.
  unfold optional_blocks. cbn [trace snd]. rewrite !Forall_app. repeat split.
  - destruct (is_authored (m_usdPointsForRead w) UsdGeomTokens.normals) eqn:Ha.
    + rewrite (refine_normals_fetch _ _ _ _ _ Ha). cbn zeta.
      case_decide; cbn [trace snd]; repeat constructor; intros fmt args [=].
      exists "normals", (length (Get_Vec3fArray (GetNormalsAttr (m_usdPointsForRead w)) []
                                   (m_time w))).
      split; [in_trace|]. split; [done|]. unfold short_warning. congruence.
    + rewrite (refine_normals_skip _ _ _ _ _ Ha). constructor.
  - destruct (is_authored (m_usdPointsForRead w) UsdGeomTokens.velocities) eqn:Ha.
    + rewrite (refine_velocities_fetch _ _ _ _ _ Ha). cbn zeta.
      case_decide; cbn [trace snd]; repeat constructor; intros fmt args [=].
      eexists "velocities", _.
      split; [in_trace|]. split; [eassumption|]. unfold short_warning. congruence.
    + rewrite (refine_velocities_skip _ _ _ _ _ Ha). constructor.
  - destruct (is_authored (m_usdPointsForRead w) UsdGeomTokens.widths) eqn:Ha.
    + rewrite (refine_widths_fetch _ _ _ _ _ Ha). cbn zeta.
      case_decide; cbn [trace snd]; repeat constructor; intros fmt args [=].
      eexists "widths", _.
      split; [in_trace|]. split; [eassumption|]. unfold short_warning. congruence.
    + rewrite (refine_widths_skip _ _ _ _ _ Ha). constructor.
Qed.

(** X4.  [refine] never reports a diagnostic without cause.  A warning in
    a failing run is the one about the missing point attribute, on a valid
    wrapper.  A warning in a successful run is made with the viewport
    shortcut off and reports one of normals, velocities and widths with a
    number of values that is strictly below the number of positions. *)
Theorem X4_refine_warnings_are_sound w parms fmt args :
  TF_WARN fmt args ∈ trace (refine w parms) →
  (result (refine w parms) = false ∧ isValid w = true
   ∧ fmt = "Invalid point attribute" ∧ args = [])
  ∨ (result (refine w parms) = true ∧ useViewportLOD parms = false
     ∧ ∃ what got,
         what ∈ ["normals"; "velocities"; "widths"]
         ∧ got < length (usdPoints_read w)
         ∧ TF_WARN (GT_RefineParms := GT_RefineParms) fmt args = short_warning w what got).
Proof.
  intros Hin.
  destruct (isValid w) eqn:Hw;
    [destruct (attr_valid (GetPointsAttr (m_usdPointsForRead w))) eqn:Hp|].
  - destruct (useViewportLOD parms) eqn:Hlod.
    + rewrite (refine_viewport _ _ w parms Hw Hp Hlod) in Hin. cbn [trace snd] in Hin.
      repeat (apply elem_of_cons in Hin as [[=]|Hin]). by apply elem_of_nil in Hin.
    + right. rewrite (refine_full _ _ w parms Hw Hp Hlod) in *. cbn [trace snd result fst] in *.
      split; [done|]. split; [done|].
      apply elem_of_cons in Hin as [[=]|Hin].
      apply elem_of_app in Hin as [Hin|Hin].
      * pose proof (optional_blocks_warnings w) as Hall.
        rewrite Forall_forall in Hall. exact (Hall _ Hin fmt args eq_refl).
      * repeat (apply elem_of_cons in Hin as [[=]|Hin]). by apply elem_of_nil in Hin.
  - left. revert Hin. unfold refine. rewrite Hw, Hp. cbn.
    intros Hin. apply elem_of_cons in Hin as [[= -> ->]|Hin]; [done|].
    by apply elem_of_nil in Hin.
  - revert Hin. unfold refine. rewrite Hw. cbn. intros Hin. by apply elem_of_nil in Hin.
Qed.

(** X5.  On a successful run without the viewport shortcut the point
    attribute list that [refine] builds starts with [P], and its names are
    [P], [N], [v], [pscale] in this order with some of the last three left
    out: no name occurs twice and no other name occurs. *)
Theorem X5_built_list_names w parms :
  isValid w = true →
  attr_valid (GetPointsAttr (m_usdPointsForRead w)) = true →
  useViewportLOD parms = false →
  ∃ built,
    lists_before_primvars (trace (refine w parms)) = [built]
    ∧ head (getNames built) = Some "P"
    ∧ getNames built `sublist_of` ["P"; "N"; "v"; "pscale"]
    ∧ NoDup (getNames built).
Proof.
  intros Hw Hp Hlod. exists (result (optional_blocks w)).
  split; [by apply refine_full_lists|].
  assert (Hnames :
    head (getNames (result (optional_blocks w))) = Some "P"
    ∧ getNames (result (optional_blocks w)) `sublist_of` ["P"; "N"; "v"; "pscale"]).
  { unfold optional_blocks. cbn [result fst].
    set (g := m_usdPointsForRead w). set (pos := usdPoints_read w).
    destruct (is_authored g UsdGeomTokens.normals) eqn:Hn;
      [rewrite (refine_normals_fetch _ _ _ _ _ Hn); cbn zeta; case_decide
      |rewrite (refine_normals_skip _ _ _ _ _ Hn)]; cbn [result fst snd];
    (destruct (is_authored g UsdGeomTokens.velocities) eqn:Hv;
      [rewrite (refine_velocities_fetch _ _ _ _ _ Hv); cbn zeta; case_decide
      |rewrite (refine_velocities_skip _ _ _ _ _ Hv)]; cbn [result fst snd]);
    (destruct (is_authored g UsdGeomTokens.widths) eqn:Hs;
      [rewrite (refine_widths_fetch _ _ _ _ _ Hs); cbn zeta; case_decide
      |rewrite (refine_widths_skip _ _ _ _ _ Hs)]; cbn [result fst snd]);
    (split; [reflexivity|]);
    vm_compute; repeat first [apply sublist_nil_l | apply sublist_skip | apply sublist_cons]. }
  destruct Hnames as [Hhead Hsub]. split; [done|]. split; [done|].
  eapply sublist_NoDup; [|exact Hsub].
  repeat (apply NoDup_cons; split; [intros Hx; repeat (apply elem_of_cons in Hx as [[=]|Hx]);
                                     by apply elem_of_nil in Hx|]).
  apply NoDup_nil. done.
Qed.

(** X6.  The velocities block reads into the buffer that the normals block
    has filled.  When velocities are authored but have no value at the
    wrapper's time, [Get] leaves the buffer as it is, and the block treats
    the normals as velocities: with too few normals it warns about
    velocities, and otherwise it binds [v] to the normals' values. *)
Theorem X6_unreadable_velocities_take_the_normals w parms (nv : VtArray GfVec3f) :
  isValid w = true →
  attr_valid (GetPointsAttr (m_usdPointsForRead w)) = true →
  useViewportLOD parms = false →
  is_authored (m_usdPointsForRead w) UsdGeomTokens.normals = true →
  attr_value (GetNormalsAttr (m_usdPointsForRead w)) (m_time w) = Some (VtVec3fArray nv) →
  is_authored (m_usdPointsForRead w) UsdGeomTokens.velocities = true →
  attr_value (GetVelocitiesAttr (m_usdPointsForRead w)) (m_time w) = None →
  ∃ built,
    lists_before_primvars (trace (refine w parms)) = [built]
    ∧ (length nv < length (usdPoints_read w) →
         short_warning w "velocities" (length nv) ∈ trace (refine w parms)
         ∧ get built "v" = None)
    ∧ (length (usdPoints_read w) ≤ length nv →
         get built "v" = Some (GusdGT_VtArray nv GT_TYPE_VECTOR)).
Proof.
  intros Hw Hp Hlod Hn Hnv Hv Hvv. exists (result (optional_blocks w)).
  split; [by apply refine_full_lists|].
  rewrite (refine_full _ _ w parms Hw Hp Hlod). cbn [trace snd].
  unfold optional_blocks, short_warning. cbn [result trace fst snd].
  rewrite refine_widths_frame by done.
  rewrite (refine_normals_fetch _ _ _ _ _ Hn). cbn zeta.
  assert (Hgot : ∀ b : VtArray GfVec3f,
            Get_Vec3fArray (GetNormalsAttr (m_usdPointsForRead w)) b (m_time w) = nv).
  { intros b. unfold Get_Vec3fArray. by rewrite Hnv. }
  assert (Hkeep : ∀ b : VtArray GfVec3f,
            Get_Vec3fArray (GetVelocitiesAttr (m_usdPointsForRead w)) b (m_time w) = b).
  { intros b. unfold Get_Vec3fArray. by rewrite Hvv. }
  rewrite !Hgot.
  case_decide; cbn [result trace fst snd];
    rewrite (refine_velocities_fetch _ _ _ _ _ Hv); cbn zeta; rewrite !Hkeep;
    case_decide; try lia;
    cbn [result trace fst snd]; (split; [intros ?|intros ?]); try lia.
  - split; [in_trace|reflexivity].
  - apply get_addAttribute_eq.
Qed.

(** X7.  An optional attribute that is authored but has no value at the
    wrapper's time is fetched into an empty buffer: with at least one
    position, normals and widths in this state are reported as having 0
    values and are left out of the list. *)
Theorem X7_unreadable_attribute_reported_empty w parms :
  isValid w = true →
  attr_valid (GetPointsAttr (m_usdPointsForRead w)) = true →
  useViewportLOD parms = false →
  0 < length (usdPoints_read w) →
  ∃ built,
    lists_before_primvars (trace (refine w parms)) = [built]
    ∧ (is_authored (m_usdPointsForRead w) UsdGeomTokens.normals = true →
       attr_value (GetNormalsAttr (m_usdPointsForRead w)) (m_time w) = None →
       short_warning w "normals" 0 ∈ trace (refine w parms) ∧ get built "N" = None)
    ∧ (is_authored (m_usdPointsForRead w) UsdGeomTokens.widths = true →
       attr_value (GetWidthsAttr (m_usdPointsForRead w)) (m_time w) = None →
       short_warning w "widths" 0 ∈ trace (refine w parms) ∧ get built "pscale" = None).
Proof.
  intros Hw Hp Hlod Hpos. exists (result (optional_blocks w)).
  split; [by apply refine_full_lists|].
  rewrite (refine_full _ _ w parms Hw Hp Hlod). cbn [trace snd].
  unfold optional_blocks, short_warning. cbn [result trace fst snd]. split.
  - intros Ha Hval.
    rewrite refine_widths_frame, refine_velocities_frame by done.
    rewrite (refine_normals_fetch _ _ _ _ _ Ha). cbn zeta.
    assert (Hempty : Get_Vec3fArray (GetNormalsAttr (m_usdPointsForRead w)) [] (m_time w)
                     = []).
    { unfold Get_Vec3fArray. by rewrite Hval. }
    rewrite !Hempty. cbn [length].
    rewrite decide_True by done. cbn [result trace fst snd].
    split; [in_trace|reflexivity].
  - intros Ha Hval.
    rewrite (refine_widths_fetch _ _ _ _ _ Ha). cbn zeta.
    assert (Hempty : Get_FloatArray (GetWidthsAttr (m_usdPointsForRead w)) [] (m_time w)
                     = []).
    { unfold Get_FloatArray. by rewrite Hval. }
    rewrite !Hempty. cbn [length].
    rewrite decide_True by done. cbn [result trace fst snd].
    split; [in_trace|]. by rewrite refine_velocities_frame, refine_normals_frame.
Qed.

End ReadExtras.

Lemma X4_refine_warnings_are_sound_witness :
  TF_WARN (not_enough "normals") [ArgText "/cloud"; ArgSize 2; ArgSize 1]
    ∈ trace (Scene.refine Scene.reader None)
  ∧ ((result (Scene.refine Scene.reader None) = false ∧ isValid Scene.reader = true
      ∧ not_enough "normals" = "Invalid point attribute"
      ∧ [ArgText "/cloud"; ArgSize 2; ArgSize 1] = [])
     ∨ (result (Scene.refine Scene.reader None) = true ∧ Scene.useViewportLOD None = false
        ∧ ∃ what got,
            what ∈ ["normals"; "velocities"; "widths"]
            ∧ got < length (usdPoints_read Scene.reader)
            ∧ TF_WARN (GT_RefineParms := bool) (not_enough "normals")
                [ArgText "/cloud"; ArgSize 2; ArgSize 1]
              = short_warning Scene.reader what got)).
Proof.
  assert (Hin : TF_WARN (not_enough "normals") [ArgText "/cloud"; ArgSize 2; ArgSize 1]
                  ∈ trace (Scene.refine Scene.reader None)).
  { vm_compute. repeat constructor. }
  split; [exact Hin|].
  exact (X4_refine_warnings_are_sound Scene.useViewportLOD Scene.loadPrimvars
           Scene.reader None _ _ Hin).
Defined.

Lemma X5_built_list_names_witness :
  (isValid Scene.reader = true
   ∧ attr_valid (GetPointsAttr (m_usdPointsForRead Scene.reader)) = true
   ∧ Scene.useViewportLOD None = false)
  ∧ ∃ built,
      lists_before_primvars (trace (Scene.refine Scene.reader None)) = [built]
      ∧ head (getNames built) = Some "P"
      ∧ getNames built `sublist_of` ["P"; "N"; "v"; "pscale"]
      ∧ NoDup (getNames built).
Proof.
  split; [repeat split|].
  apply (X5_built_list_names Scene.useViewportLOD Scene.loadPrimvars Scene.reader None);
    reflexivity.
Defined.

Lemma X6_unreadable_velocities_take_the_normals_witness :
  (isValid Cases.gappy_reader = true
   ∧ is_authored Cases.gappy UsdGeomTokens.velocities = true
   ∧ attr_value (GetVelocitiesAttr Cases.gappy) (TimeSample 1) = None)
  ∧ ∃ built,
      lists_before_primvars (trace (Scene.refine Cases.gappy_reader None)) = [built]
      ∧ get built "v" = Some (GusdGT_VtArray Cases.normals2 GT_TYPE_VECTOR).
Proof.
  split; [repeat split|].
  destruct (X6_unreadable_velocities_take_the_normals Scene.useViewportLOD
              Scene.loadPrimvars Cases.gappy_reader None Cases.normals2
              eq_refl eq_refl eq_refl eq_refl eq_refl eq_refl eq_refl)
    as (built & Hl & _ & Hv).
  exists built. split; [exact Hl|]. apply Hv. vm_compute. lia.
Defined.

Lemma X7_unreadable_attribute_reported_empty_witness :
  (isValid Cases.gappy_reader = true
   ∧ 0 < length (usdPoints_read Cases.gappy_reader)
   ∧ is_authored Cases.gappy UsdGeomTokens.widths = true
   ∧ attr_value (GetWidthsAttr Cases.gappy) (TimeSample 1) = None)
  ∧ ∃ built,
      lists_before_primvars (trace (Scene.refine Cases.gappy_reader None)) = [built]
      ∧ short_warning Cases.gappy_reader "widths" 0
          ∈ trace (Scene.refine Cases.gappy_reader None)
      ∧ get built "pscale" = None.
Proof.
  split; [repeat split; vm_compute; lia|].
  destruct (X7_unreadable_attribute_reported_empty Scene.useViewportLOD
              Scene.loadPrimvars Cases.gappy_reader None eq_refl eq_refl eq_refl)
    as (built & Hl & _ & Hw); [vm_compute; lia|].
  exists built. split; [exact Hl|]. apply Hw; reflexivity.
Defined.

(** ** The write path: what is updated, and in which order *)

Lemma findAttribute_point_mesh (points detail : GT_AttributeList) (name : string) :
  findAttribute (GT_PrimPointMesh points detail) name =
    match get points name with
    | Some d => (Some d, GT_OWNER_POINT)
    | None =>
        match get detail name with
        | Some d => (Some d, GT_OWNER_CONSTANT)
        | None => (None, GT_OWNER_INVALID)
        end
    end.
Proof.
  unfold findAttribute, GT_PrimPointMesh. cbn.
  destruct (get points name); [done|]. by destruct (get detail name).
Qed.

Section WriteExtras.

Context {base_state UT_Matrix4D GfMatrix4d GusdSimpleXformCache : Type}.
Variable GetParent : UsdPrim -> UsdPrim.
Variable computeTransform :
  UsdPrim -> UsdTimeCode -> UT_Matrix4D -> GusdSimpleXformCache ->
  GfMatrix4d * GusdSimpleXformCache.
Variable getExtentsArray : GT_Primitive -> option GT_DataArray.
Variable s_ownerToUsdInterp : GT_Owner -> TfToken.
Variable base_updateFromGTPrim :
  GT_Primitive -> UT_Matrix4D -> GusdContext -> GusdSimpleXformCache ->
  bool * GusdSimpleXformCache.

Implicit Types (w : GusdPointsWrapper base_state) (src : GT_Primitive).
Implicit Types (xf : UT_Matrix4D) (ctxt : GusdContext) (cache : GusdSimpleXformCache).

Local Abbreviation updateFromGTPrim :=
  (updateFromGTPrim GetParent computeTransform getExtentsArray s_ownerToUsdInterp
     base_updateFromGTPrim).
Local Abbreviation run_trace :=
  (updateFromGTPrim_trace GetParent computeTransform getExtentsArray s_ownerToUsdInterp
     base_updateFromGTPrim).

Ltac by_cases src ctxt :=
  destruct (negb (getOverGeo ctxt src) && _), (bool_decide (granularity ctxt = PER_FRAME)),
    (getPointAttributes src), (getDetailAttributes src), (findAttribute src "Cd").1.

Lemma points_updates w src xf ctxt cache :
  schema_valid (m_usdPointsForWrite w) = true →
  updates_of UsdGeomTokens.points (trace (updateFromGTPrim w src xf ctxt cache))
  = [((findAttribute src "P").2, "P", (findAttribute src "P").1, time ctxt)].
Proof.
  intros Hw. rewrite (run_trace w src xf ctxt cache Hw). unfold updates_of.
  by_cases src ctxt; reflexivity.
Qed.

Lemma updateFromGTPrim_result w src xf ctxt cache :
  schema_valid (m_usdPointsForWrite w) = true →
  result (updateFromGTPrim w src xf ctxt cache)
  = base_updateFromGTPrim src xf ctxt
      (computeTransform (GetParent (GetPrim (m_usdPointsForWrite w)))
         (time ctxt) xf cache).2.
Proof.
  intros Hw. unfold updateFromGTPrim. rewrite Hw. cbn [negb].
  destruct (computeTransform _ _ _ _) as [xform cache'].
  destruct (findAttribute src "P") as [aP oP], (findAttribute src "N") as [aN oN],
    (findAttribute src "v") as [av ov], (widths_source src) as [aw ow],
    (findAttribute src "Cd") as [aCd oCd].
  unfold updateAttributeFromGTPrim, updateTransformFromGTPrim,
    updateVisibilityFromGTPrim, updatePrimvarFromGTPrim.
  unfold bind, emit, ret, result.
  destruct (negb (getOverGeo ctxt src) && _), (bool_decide (granularity ctxt = PER_FRAME)),
    (getPointAttributes src), (getDetailAttributes src), aCd; reflexivity.
Qed.

Lemma updateFromGTPrim_last w src xf ctxt cache :
  schema_valid (m_usdPointsForWrite w) = true →
  last (trace (updateFromGTPrim w src xf ctxt cache)) = Some (BaseUpdate src xf ctxt).
Proof.
  intros Hw. rewrite (run_trace w src xf ctxt cache Hw). rewrite !app_assoc. apply last_snoc.
Qed.

(** X8.  On a valid write prim one run calls [updateAttributeFromGTPrim]
    exactly five times, in this order: for the extent with the host's
    extents array, for the points with the host attribute [P], for the
    normals with [N], for the velocities with [v], and for the widths with
    [widths] (or the scaled [pscale]); each call is made also when the
    host attribute is missing and the handle is null.  The transform is
    updated exactly once with the matrix from [computeTransform], forced
    exactly at per-frame granularity.  Visibility, purpose and primvars go
    through other calls and are not counted here. *)
Theorem X8_typed_attributes_updated_once w src xf ctxt cache :
  schema_valid (m_usdPointsForWrite w) = true →
  let tr := trace (updateFromGTPrim w src xf ctxt cache) in
  let t := time ctxt in
  attribute_updates tr
    = [(UsdGeomTokens.extent, "extents", getExtentsArray src, t);
       (UsdGeomTokens.points, "P", (findAttribute src "P").1, t);
       (UsdGeomTokens.normals, "N", (findAttribute src "N").1, t);
       (UsdGeomTokens.velocities, "v", (findAttribute src "v").1, t);
       (UsdGeomTokens.widths, "widths", (widths_source src).1, t)]
  ∧ updates_of UsdGeomTokens.extent tr
    = [(GT_OWNER_INVALID, "extents", getExtentsArray src, t)]
  ∧ updates_of UsdGeomTokens.points tr
    = [((findAttribute src "P").2, "P", (findAttribute src "P").1, t)]
  ∧ updates_of UsdGeomTokens.normals tr
    = [((findAttribute src "N").2, "N", (findAttribute src "N").1, t)]
  ∧ updates_of UsdGeomTokens.velocities tr
    = [((findAttribute src "v").2, "v", (findAttribute src "v").1, t)]
  ∧ updates_of UsdGeomTokens.widths tr
    = [((widths_source src).2, "widths", (widths_source src).1, t)]
  ∧ transform_updates tr
    = [((computeTransform (GetParent (GetPrim (m_usdPointsForWrite w))) t xf cache).1,
        t, bool_decide (granularity ctxt = PER_FRAME))].
Proof.
  intros Hw tr t. subst tr t. rewrite (run_trace w src xf ctxt cache Hw).
  unfold updates_of, transform_updates, attribute_updates.
  repeat split; by_cases src ctxt; reflexivity.
Qed.

(** X9.  The primvar calls of a run on a valid write prim are, in this
    order: the pass-through of the point attributes when the source has a
    point list, the pass-through of the detail attributes when it has a
    detail list, and, when the source has an attribute [Cd], one call for
    the single name [displayColor] that carries the data of [Cd], is active
    for the owner of [Cd] alone and uses that owner's interpolation. *)
Theorem X9_primvar_calls_in_order w src xf ctxt cache :
  schema_valid (m_usdPointsForWrite w) = true →
  primvar_calls (trace (updateFromGTPrim w src xf ctxt cache)) =
    match getPointAttributes src with
    | Some pointAttrs =>
        [(pointAttrs, passthrough_filter ctxt GT_OWNER_POINT, UsdGeomTokens.vertex,
          time ctxt)]
    | None => []
    end
    ++ match getDetailAttributes src with
       | Some constAttrs =>
           [(constAttrs, passthrough_filter ctxt GT_OWNER_CONSTANT,
             UsdGeomTokens.constant, time ctxt)]
       | None => []
       end
    ++ match findAttribute src "Cd" with
       | (Some Cd, own) =>
           [([("displayColor", Cd)], setActiveOwners (GusdGT_AttrFilter_new "*") [own],
             s_ownerToUsdInterp own, time ctxt)]
       | (None, _) => []
       end.
Proof.
  intros Hw. rewrite (run_trace w src xf ctxt cache Hw). unfold primvar_calls.
  destruct (findAttribute src "Cd") as [[Cd|] own]; cbn [fst snd];
    destruct (negb (getOverGeo ctxt src) && _),
      (bool_decide (granularity ctxt = PER_FRAME)),
      (getPointAttributes src), (getDetailAttributes src); reflexivity.
Qed.

(** X10.  On a valid write prim the run ends with the call of the base
    class, and the value returned is the one the base class returns for
    the transform cache that [computeTransform] left. *)
Theorem X10_update_returns_base_result w src xf ctxt cache :
  schema_valid (m_usdPointsForWrite w) = true →
  result (updateFromGTPrim w src xf ctxt cache)
    = base_updateFromGTPrim src xf ctxt
        (computeTransform (GetParent (GetPrim (m_usdPointsForWrite w)))
           (time ctxt) xf cache).2
  ∧ last (trace (updateFromGTPrim w src xf ctxt cache)) = Some (BaseUpdate src xf ctxt).
Proof.
  intros Hw. split; [by apply updateFromGTPrim_result | by apply updateFromGTPrim_last].
Qed.

End WriteExtras.

Lemma X8_typed_attributes_updated_once_witness :
  schema_valid (m_usdPointsForWrite Scene.writer) = true
  ∧ attribute_updates
      (trace (Scene.updateFromGTPrim Scene.writer Scene.with_widths tt
                (Scene.context PER_FRAME "default" false) tt))
    = [("extent", "extents", None, TimeSample 1);
       ("points", "P", Some Scene.P2, TimeSample 1);
       ("normals", "N", None, TimeSample 1);
       ("velocities", "v", None, TimeSample 1);
       ("widths", "widths", Some (Scene.scalars [F32.one; F32.one]), TimeSample 1)]
  ∧ transform_updates
      (trace (Scene.updateFromGTPrim Scene.writer Scene.with_widths tt
                (Scene.context PER_FRAME "default" false) tt))
    = [(tt, TimeSample 1, true)].
Proof.
  split; [reflexivity|].
  destruct (X8_typed_attributes_updated_once (fun p => p) Scene.computeTransform
              Scene.getExtentsArray Scene.s_ownerToUsdInterp Scene.base_updateFromGTPrim
              Scene.writer Scene.with_widths tt (Scene.context PER_FRAME "default" false) tt
              eq_refl)
    as (Hall & _ & _ & _ & _ & _ & Hx).
  split; [exact Hall | exact Hx].
Defined.

Lemma X9_primvar_calls_in_order_witness :
  schema_valid (m_usdPointsForWrite Scene.writer) = true
  ∧ primvar_calls
      (trace (Scene.updateFromGTPrim Scene.writer Cases.with_color tt
                (Scene.context ONE_FILE "default" false) tt))
    = [([("P", Scene.P2); ("Cd", Scene.P2)],
        passthrough_filter (Scene.context ONE_FILE "default" false) GT_OWNER_POINT,
        "vertex", TimeSample 1);
       ([("displayColor", Scene.P2)],
        setActiveOwners (GusdGT_AttrFilter_new "*") [GT_OWNER_POINT],
        "vertex", TimeSample 1)].
Proof.
  split; [reflexivity|].
  exact (X9_primvar_calls_in_order (fun p => p) Scene.computeTransform
           Scene.getExtentsArray Scene.s_ownerToUsdInterp Scene.base_updateFromGTPrim
           Scene.writer Cases.with_color tt (Scene.context ONE_FILE "default" false) tt
           eq_refl).
Defined.

Lemma X10_update_returns_base_result_witness :
  schema_valid (m_usdPointsForWrite Scene.writer) = true
  ∧ result (Scene.updateFromGTPrim Scene.writer Scene.with_pscale tt
              (Scene.context ONE_FILE "default" false) tt) = (true, tt)
  ∧ last (trace (Scene.updateFromGTPrim Scene.writer Scene.with_pscale tt
                   (Scene.context ONE_FILE "default" false) tt))
    = Some (BaseUpdate Scene.with_pscale tt (Scene.context ONE_FILE "default" false)).
Proof.
  split; [reflexivity|].
  exact (X10_update_returns_base_result (fun p => p) Scene.computeTransform
           Scene.getExtentsArray Scene.s_ownerToUsdInterp Scene.base_updateFromGTPrim
           Scene.writer Scene.with_pscale tt (Scene.context ONE_FILE "default" false) tt
           eq_refl).
Defined.

(** ** Reading a prim and writing the result back *)

Section RoundTrip.

Context {base_state GT_RefineParms UT_Matrix4D GfMatrix4d GusdSimpleXformCache : Type}.
Variable useViewportLOD : option GT_RefineParms -> bool.
Variable loadPrimvars :
  UsdTimeCode -> option GT_RefineParms -> nat -> nat -> nat -> string ->
  PrimvarTargets -> PrimvarTargets.
Variable GetParent : UsdPrim -> UsdPrim.
Variable computeTransform :
  UsdPrim -> UsdTimeCode -> UT_Matrix4D -> GusdSimpleXformCache ->
  GfMatrix4d * GusdSimpleXformCache.
Variable getExtentsArray : GT_Primitive -> option GT_DataArray.
Variable s_ownerToUsdInterp : GT_Owner -> TfToken.
Variable base_updateFromGTPrim :
  GT_Primitive -> UT_Matrix4D -> GusdContext -> GusdSimpleXformCache ->
  bool * GusdSimpleXformCache.

Implicit Types (w wr : GusdPointsWrapper base_state).

Local Abbreviation refine := (refine useViewportLOD loadPrimvars).
Local Abbreviation updateFromGTPrim :=
  (updateFromGTPrim GetParent computeTransform getExtentsArray s_ownerToUsdInterp
     base_updateFromGTPrim).

Local Abbreviation built_by w :=
  (result (optional_blocks (GT_RefineParms := GT_RefineParms) w)).

Lemma halved_then_doubled (ws : list fpreal32) :
  Forall (λ x, scales_exactly x = true) ws →
  map F32.mul_two (map F32.mul_half ws) = ws.
Proof.
  induction 1 as [|x l Hx _ IH]; [done|].
  cbn [map]. f_equal; [|exact IH].
  destruct x as [s|s| |s m e]; [by destruct s | by destruct s | done |].
  cbn [scales_exactly] in Hx.
  apply andb_true_iff in Hx as [Hx He2]. apply andb_true_iff in Hx as [Hd He1].
  apply Pos.eqb_eq in Hd. apply Z.leb_le in He1, He2.
  by apply mul_two_mul_half.
Qed.

Lemma built_has_no_widths w : get (built_by w) "widths" = None.
Proof.
  unfold optional_blocks. cbn [result fst].
  rewrite refine_widths_frame by done.
  rewrite refine_velocities_frame by done.
  by rewrite refine_normals_frame by done.
Qed.

(** X11.  Widths survive a read followed by a write.  When the primvar
    loader adds nothing, the widths are authored, readable, at least as
    many as the positions and all scale exactly (none of them is a NaN),
    the primitive that [refine] adds carries them halved as [pscale] and
    carries no [widths]; handing that primitive to [updateFromGTPrim] of a
    wrapper with a valid write prim updates the widths attribute once, as
    a point attribute, with the values that were read. *)
Theorem X11_widths_survive_read_then_write w parms (ws : VtArray fpreal32) wr
    (xf : UT_Matrix4D) (ctxt : GusdContext) (cache : GusdSimpleXformCache) :
  isValid w = true →
  attr_valid (GetPointsAttr (m_usdPointsForRead w)) = true →
  useViewportLOD parms = false →
  loadPrimvars (m_time w) parms 0 (length (usdPoints_read w)) 0
    (GetPath (GetPrim (m_usdPointsForRead w))) (primvar_targets (built_by w))
    = primvar_targets (built_by w) →
  attr_valid (GetWidthsAttr (m_usdPointsForRead w)) = true →
  HasAuthoredValueOpinion (GetWidthsAttr (m_usdPointsForRead w)) = true →
  attr_value (GetWidthsAttr (m_usdPointsForRead w)) (m_time w) = Some (VtFloatArray ws) →
  length (usdPoints_read w) ≤ length ws →
  Forall (λ x, scales_exactly x = true) ws →
  schema_valid (m_usdPointsForWrite wr) = true →
  ∃ prim,
    added_primitives (trace (refine w parms)) = [prim]
    ∧ findAttribute prim "pscale"
      = (Some (GT_Real32Array (map F32.mul_half ws) 1), GT_OWNER_POINT)
    ∧ (findAttribute prim "widths").1 = None
    ∧ updates_of UsdGeomTokens.widths (trace (updateFromGTPrim wr prim xf ctxt cache))
      = [(GT_OWNER_POINT, "widths", Some (GT_Real32Array ws 1), time ctxt)].
Proof.
  intros Hv Hp Hlod Hload Hwv Hwa Hval Hlen Hexact Hw'.
  exists (GT_PrimPointMesh (built_by w) GT_AttributeList_new). split.
  { rewrite (refine_full_added useViewportLOD loadPrimvars w parms Hv Hp Hlod).
    cbn zeta. rewrite Hload. reflexivity. }
  destruct (built_widths (GT_RefineParms := GT_RefineParms) w ws Hwv Hwa Hval) as [_ Hps]. specialize (Hps Hlen).
  assert (Hfind : findAttribute (GT_PrimPointMesh (built_by w) GT_AttributeList_new) "pscale"
                  = (Some (GT_Real32Array (map F32.mul_half ws) 1), GT_OWNER_POINT)).
  { rewrite findAttribute_point_mesh. by rewrite Hps. }
  split; [exact Hfind|].
  split; [by rewrite findAttribute_point_mesh, built_has_no_widths|].
  rewrite (widths_updates GetParent computeTransform getExtentsArray s_ownerToUsdInterp
             base_updateFromGTPrim wr _ xf ctxt cache Hw').
  unfold widths_source.
  rewrite (findAttribute_point_mesh _ _ "widths"), built_has_no_widths.
  change (get GT_AttributeList_new "widths") with (@None GT_DataArray).
  cbn iota. rewrite Hfind. cbn [getTupleSize]. rewrite decide_True by done.
  rewrite fillArray_tuple1 by done. cbn [flat_data fst snd].
  by rewrite (halved_then_doubled ws Hexact).
Qed.

(** X12.  Positions survive a read followed by a write.  Whatever the
    viewport flag says, when the points attribute is valid and the primvar
    loader adds nothing, the primitive that [refine] adds, handed to
    [updateFromGTPrim] of a wrapper with a valid write prim, updates the
    points attribute once, as a point attribute, with the array that was
    read; and it never carries an attribute named [widths]. *)
Theorem X12_positions_survive_read_then_write w parms wr
    (xf : UT_Matrix4D) (ctxt : GusdContext) (cache : GusdSimpleXformCache) :
  isValid w = true →
  attr_valid (GetPointsAttr (m_usdPointsForRead w)) = true →
  loadPrimvars (m_time w) parms 0 (length (usdPoints_read w)) 0
    (GetPath (GetPrim (m_usdPointsForRead w))) (primvar_targets (built_by w))
    = primvar_targets (built_by w) →
  schema_valid (m_usdPointsForWrite wr) = true →
  ∃ prim,
    added_primitives (trace (refine w parms)) = [prim]
    ∧ findAttribute prim "widths" = (None, GT_OWNER_INVALID)
    ∧ updates_of UsdGeomTokens.points (trace (updateFromGTPrim wr prim xf ctxt cache))
      = [(GT_OWNER_POINT, "P",
          Some (GusdGT_VtArray (usdPoints_read w) GT_TYPE_POINT), time ctxt)].
Proof.
  intros Hv Hp Hload Hw'.
  destruct (useViewportLOD parms) eqn:Hlod.
  - eexists. split.
    { by rewrite (refine_viewport useViewportLOD loadPrimvars w parms Hv Hp Hlod). }
    split; [reflexivity|].
    by rewrite (points_updates GetParent computeTransform getExtentsArray
                  s_ownerToUsdInterp base_updateFromGTPrim wr _ xf ctxt cache Hw').
  - exists (GT_PrimPointMesh (built_by w) GT_AttributeList_new). split.
    { rewrite (refine_full_added useViewportLOD loadPrimvars w parms Hv Hp Hlod).
      cbn zeta. rewrite Hload. reflexivity. }
    split.
    { rewrite findAttribute_point_mesh. by rewrite built_has_no_widths. }
    rewrite (points_updates GetParent computeTransform getExtentsArray
               s_ownerToUsdInterp base_updateFromGTPrim wr _ xf ctxt cache Hw').
    rewrite findAttribute_point_mesh. by rewrite built_positions.
Qed.

End RoundTrip.

Lemma X11_widths_survive_read_then_write_witness :
  ∃ prim,
    added_primitives (trace (Scene.refine Cases.sized_reader None)) = [prim]
    ∧ findAttribute prim "pscale"
      = (Some (GT_Real32Array (map F32.mul_half [F32.one; F32.half]) 1), GT_OWNER_POINT)
    ∧ (findAttribute prim "widths").1 = None
    ∧ updates_of UsdGeomTokens.widths
        (trace (Scene.updateFromGTPrim Scene.writer prim tt
                  (Scene.context ONE_FILE "default" false) tt))
      = [(GT_OWNER_POINT, "widths", Some (GT_Real32Array [F32.one; F32.half] 1),
          TimeSample 1)].
Proof.
  apply (X11_widths_survive_read_then_write Scene.useViewportLOD Scene.loadPrimvars
           (fun p => p) Scene.computeTransform Scene.getExtentsArray
           Scene.s_ownerToUsdInterp Scene.base_updateFromGTPrim
           Cases.sized_reader None [F32.one; F32.half] Scene.writer tt
           (Scene.context ONE_FILE "default" false) tt);
    first [reflexivity | repeat constructor].
Defined.

Lemma X12_positions_survive_read_then_write_witness :
  ∃ prim,
    added_primitives (trace (Scene.refine Scene.reader (Some true))) = [prim]
    ∧ findAttribute prim "widths" = (None, GT_OWNER_INVALID)
    ∧ updates_of UsdGeomTokens.points
        (trace (Scene.updateFromGTPrim Scene.writer prim tt
                  (Scene.context ONE_FILE "default" false) tt))
      = [(GT_OWNER_POINT, "P", Some Scene.P2, TimeSample 1)].
Proof.
  apply (X12_positions_survive_read_then_write Scene.useViewportLOD Scene.loadPrimvars
           (fun p => p) Scene.computeTransform Scene.getExtentsArray
           Scene.s_ownerToUsdInterp Scene.base_updateFromGTPrim
           Scene.reader (Some true) Scene.writer tt
           (Scene.context ONE_FILE "default" false) tt);
    reflexivity.
Defined.

(** ** Wrappers as they are made and remade *)

Lemma refine_ext {base_state GT_RefineParms : Type}
    (useViewportLOD : option GT_RefineParms -> bool)
    (loadPrimvars :
       UsdTimeCode -> option GT_RefineParms -> nat -> nat -> nat -> string ->
       PrimvarTargets -> PrimvarTargets)
    (w1 w2 : GusdPointsWrapper base_state) (parms : option GT_RefineParms) :
  m_time w1 = m_time w2 →
  m_usdPointsForRead w1 = m_usdPointsForRead w2 →
  isValid w1 = isValid w2 →
  refine useViewportLOD loadPrimvars w1 parms = refine useViewportLOD loadPrimvars w2 parms.
Proof.
  destruct w1 as [t1 b1 wr1 rd1], w2 as [t2 b2 wr2 rd2].
  cbn [m_time m_usdPointsForRead]. intros -> -> Hv.
  unfold refine. rewrite Hv. reflexivity.
Qed.

Lemma refine_unreadable {base_state GT_RefineParms : Type}
    (useViewportLOD : option GT_RefineParms -> bool)
    (loadPrimvars :
       UsdTimeCode -> option GT_RefineParms -> nat -> nat -> nat -> string ->
       PrimvarTargets -> PrimvarTargets)
    (w : GusdPointsWrapper base_state) (parms : option GT_RefineParms) :
  schema_valid (m_usdPointsForRead w) = false →
  refine useViewportLOD loadPrimvars w parms
  = (false, if isValid w then [TF_WARN "Invalid point attribute" []] else []).
Proof.
  intros Hr. unfold refine.
  destruct (isValid w); [|reflexivity]. cbn [negb].
  unfold GetPointsAttr, GetAttribute. unfold schema_valid in Hr. rewrite Hr.
  reflexivity.
Qed.

Section Lifecycle.

Context {base_state GT_RefineParms UsdStage GusdUSD_StageProxyHandle GusdPurposeSet : Type}.
Context {UT_Matrix4D GfMatrix4d GusdSimpleXformCache : Type}.
Variable useViewportLOD : option GT_RefineParms -> bool.
Variable loadPrimvars :
  UsdTimeCode -> option GT_RefineParms -> nat -> nat -> nat -> string ->
  PrimvarTargets -> PrimvarTargets.
Variable GetParent : UsdPrim -> UsdPrim.
Variable computeTransform :
  UsdPrim -> UsdTimeCode -> UT_Matrix4D -> GusdSimpleXformCache ->
  GfMatrix4d * GusdSimpleXformCache.
Variable getExtentsArray : GT_Primitive -> option GT_DataArray.
Variable s_ownerToUsdInterp : GT_Owner -> TfToken.
Variable base_updateFromGTPrim :
  GT_Primitive -> UT_Matrix4D -> GusdContext -> GusdSimpleXformCache ->
  bool * GusdSimpleXformCache.
Variable OverridePrim : UsdStage -> SdfPath -> UsdPrim * UsdStage.
Variable UsdGeomPoints_Define : UsdStage -> SdfPath -> UsdGeomPoints * UsdStage.
Variable clearCaches : base_state -> base_state.
Variable GusdPrimWrapper_default : UsdTimeCode * base_state.
Variable GusdPrimWrapper_new : UsdTimeCode -> GusdPurposeSet -> UsdTimeCode * base_state.

Implicit Types (w : GusdPointsWrapper base_state) (src : GT_Primitive).
Implicit Types (xf : UT_Matrix4D) (ctxt : GusdContext) (cache : GusdSimpleXformCache).
Implicit Types (stage : UsdStage) (path : SdfPath) (parms : option GT_RefineParms).

Local Abbreviation refine := (refine useViewportLOD loadPrimvars).
Local Abbreviation updateFromGTPrim :=
  (updateFromGTPrim GetParent computeTransform getExtentsArray s_ownerToUsdInterp
     base_updateFromGTPrim).
Local Abbreviation initUsdPrim := (initUsdPrim UsdStage OverridePrim UsdGeomPoints_Define).
Local Abbreviation redefine :=
  (redefine UsdStage OverridePrim UsdGeomPoints_Define clearCaches).
Local Abbreviation defineForWrite :=
  (defineForWrite (base_state := base_state) OverridePrim UsdGeomPoints_Define
     GusdPrimWrapper_default).
Local Abbreviation defineForRead :=
  (defineForRead (base_state := base_state)
     (GusdUSD_StageProxyHandle := GusdUSD_StageProxyHandle) GusdPrimWrapper_new).

(** The schema object that [initUsdPrim] stores and the stage it leaves. *)
Local Abbreviation defined stage path asOverride :=
  (if asOverride as _ return (UsdGeomPoints * UsdStage)%type
   then ({| GetPrim := (OverridePrim stage path).1 |}, (OverridePrim stage path).2)
   else UsdGeomPoints_Define stage path).

Lemma initUsdPrim_eq w stage path (asOverride : bool) :
  initUsdPrim w stage path asOverride
  = (schema_valid (defined stage path asOverride).1,
     set_usdPointsForWrite w (defined stage path asOverride).1,
     (defined stage path asOverride).2).
Proof.
  unfold initUsdPrim. destruct asOverride.
  - by destruct (OverridePrim stage path).
  - by destruct (UsdGeomPoints_Define stage path).
Qed.

Lemma redefine_eq w stage path ctxt src :
  redefine w stage path ctxt src
  = (true,
     {| m_time := m_time w; m_base := clearCaches (m_base w);
        m_usdPointsForWrite := (defined stage path (getOverGeo ctxt src)).1;
        m_usdPointsForRead := m_usdPointsForRead w |},
     (defined stage path (getOverGeo ctxt src)).2).
Proof. unfold redefine. by rewrite initUsdPrim_eq. Qed.

Lemma updateFromGTPrim_nonempty w src xf ctxt cache :
  schema_valid (m_usdPointsForWrite w) = true →
  trace (updateFromGTPrim w src xf ctxt cache) ≠ [].
Proof.
  intros Hw Hnil.
  pose proof (updateFromGTPrim_last GetParent computeTransform getExtentsArray
                s_ownerToUsdInterp base_updateFromGTPrim w src xf ctxt cache Hw) as Hl.
  by rewrite Hnil in Hl.
Qed.

Lemma updateFromGTPrim_runs w src xf ctxt cache :
  (trace (updateFromGTPrim w src xf ctxt cache) = []
   ↔ schema_valid (m_usdPointsForWrite w) = false)
  ∧ result (updateFromGTPrim w src xf ctxt cache)
    = if schema_valid (m_usdPointsForWrite w)
      then base_updateFromGTPrim src xf ctxt
             (computeTransform (GetParent (GetPrim (m_usdPointsForWrite w)))
                (time ctxt) xf cache).2
      else (false, cache).
Proof.
  destruct (schema_valid (m_usdPointsForWrite w)) eqn:Hw.
  - split; [|by apply updateFromGTPrim_result].
    split; [|done]. intros Hnil. by apply updateFromGTPrim_nonempty in Hnil.
  - rewrite (updateFromGTPrim_invalid GetParent computeTransform getExtentsArray
               s_ownerToUsdInterp base_updateFromGTPrim w src xf ctxt cache Hw).
    done.
Qed.

(** X13.  What [updateFromGTPrim] does after [redefine] is decided by the
    result of [initUsdPrim] that [redefine] throws away: the run makes no
    call at all exactly when [initUsdPrim] returned false, and then it
    returns false with the transform cache untouched, although [redefine]
    returned true; otherwise it returns what the base class returns for the
    prim that was just defined or overridden. *)
Theorem X13_update_after_redefine w stage path ctxt src src' xf ctxt' cache :
  let after := redefine w stage path ctxt src in
  let init := initUsdPrim w stage path (getOverGeo ctxt src) in
  let ran := updateFromGTPrim after.1.2 src' xf ctxt' cache in
  after.1.1 = true
  ∧ (trace ran = [] ↔ init.1.1 = false)
  ∧ result ran
    = if init.1.1
      then base_updateFromGTPrim src' xf ctxt'
             (computeTransform (GetParent (GetPrim (m_usdPointsForWrite init.1.2)))
                (time ctxt') xf cache).2
      else (false, cache).
Proof.
  intros after init ran. subst after init ran.
  rewrite redefine_eq, initUsdPrim_eq. cbn [fst snd].
  split; [done|].
  exact (updateFromGTPrim_runs
           {| m_time := m_time w; m_base := clearCaches (m_base w);
              m_usdPointsForWrite := (defined stage path (getOverGeo ctxt src)).1;
              m_usdPointsForRead := m_usdPointsForRead w |} src' xf ctxt' cache).
Qed.

(** X14.  [redefine] leaves the read side alone: after it the wrapper has
    the read prim and the time it had, [refine] returns what it returned
    before and adds the same primitives; and when the read prim is valid
    the whole run of [refine] is the same. *)
Theorem X14_redefine_keeps_the_read_side w stage path ctxt src parms :
  let after := (redefine w stage path ctxt src).1.2 in
  m_usdPointsForRead after = m_usdPointsForRead w
  ∧ m_time after = m_time w
  ∧ result (refine after parms) = result (refine w parms)
  ∧ added_primitives (trace (refine after parms))
    = added_primitives (trace (refine w parms))
  ∧ (schema_valid (m_usdPointsForRead w) = true → refine after parms = refine w parms).
Proof.
  intros after. subst after. rewrite redefine_eq. cbn [fst snd].
  split; [done|]. split; [done|].
  destruct (schema_valid (m_usdPointsForRead w)) eqn:Hr.
  - assert (Heq : ∀ w2, m_time w2 = m_time w →
              m_usdPointsForRead w2 = m_usdPointsForRead w →
              refine w2 parms = refine w parms).
    { intros w2 Ht Hrd. apply refine_ext; [done..|].
      unfold isValid. rewrite Hrd, Hr. by rewrite !orb_true_r. }
    by rewrite Heq.
  - rewrite !(refine_unreadable useViewportLOD loadPrimvars _ parms) by done.
    split; [done|]. split; [|done].
    by destruct (isValid _), (isValid w).
Qed.

(** X15.  A wrapper made by [defineForRead] has the time the base class
    constructor stored, is valid exactly when the source prim is, and
    cannot write: [updateFromGTPrim] on it makes no call, returns false and
    leaves the transform cache as it was. *)
Theorem X15_read_wrapper_cannot_write (proxy : GusdUSD_StageProxyHandle)
    (sourcePrim : UsdGeomImageable) (t : UsdTimeCode) (purposes : GusdPurposeSet)
    src xf ctxt cache :
  let w := defineForRead proxy sourcePrim t purposes in
  m_time w = (GusdPrimWrapper_new t purposes).1
  ∧ GetPrim (m_usdPointsForRead w) = Imageable_GetPrim sourcePrim
  ∧ isValid w = prim_valid (Imageable_GetPrim sourcePrim)
  ∧ updateFromGTPrim w src xf ctxt cache = ((false, cache), []).
Proof.
  intros w. subst w. do 3 (split; [reflexivity|]).
  by apply updateFromGTPrim_invalid.
Qed.

(** X16.  A wrapper made by [defineForWrite] cannot be read: [refine] on it
    returns false, fetches no attribute and adds no primitive; when the
    write prim was defined it reports "Invalid point attribute" once, and
    when defining failed it is silent. *)
Theorem X16_write_wrapper_cannot_refine src stage path ctxt parms :
  let w := (defineForWrite src stage path ctxt).1 in
  let ran := refine w parms in
  m_usdPointsForRead w = UsdGeomPoints_default
  ∧ result ran = false
  ∧ attributes_read (trace ran) = []
  ∧ added_primitives (trace ran) = []
  ∧ warnings (trace ran)
    = if schema_valid (m_usdPointsForWrite w)
      then [("Invalid point attribute", [])] else [].
Proof.
  intros w ran. subst ran.
  assert (Hrd : m_usdPointsForRead w = UsdGeomPoints_default).
  { subst w. unfold defineForWrite, GusdPointsWrapper_forWrite.
    by rewrite initUsdPrim_eq. }
  split; [done|].
  rewrite (refine_unreadable useViewportLOD loadPrimvars w parms)
    by (by rewrite Hrd).
  unfold isValid. rewrite Hrd. change (schema_valid UsdGeomPoints_default) with false.
  rewrite orb_false_r. by destruct (schema_valid (m_usdPointsForWrite w)).
Qed.

(** X17.  A wrapper made by [defineForWrite] holds the prim that the stage
    defined, or overrode when the context asks for an overlay of the
    source; it is valid exactly when that prim is, and [updateFromGTPrim]
    on it makes no call exactly when it is not. *)
Theorem X17_define_for_write_then_update src stage path ctxt src' xf ctxt' cache :
  let made := defineForWrite src stage path ctxt in
  let ran := updateFromGTPrim made.1 src' xf ctxt' cache in
  m_usdPointsForWrite made.1
    = (if getOverGeo ctxt src
       then {| GetPrim := (OverridePrim stage path).1 |}
       else (UsdGeomPoints_Define stage path).1)
  ∧ made.2
    = (if getOverGeo ctxt src
       then (OverridePrim stage path).2
       else (UsdGeomPoints_Define stage path).2)
  ∧ m_time made.1 = GusdPrimWrapper_default.1
  ∧ isValid made.1 = schema_valid (m_usdPointsForWrite made.1)
  ∧ (trace ran = [] ↔ isValid made.1 = false)
  ∧ (isValid made.1 = false → ran = ((false, cache), [])).
Proof.
  intros made ran. subst ran made.
  unfold defineForWrite, GusdPointsWrapper_forWrite.
  rewrite initUsdPrim_eq. cbn [fst snd set_usdPointsForWrite m_usdPointsForWrite m_time].
  split; [by destruct (getOverGeo ctxt src)|].
  split; [by destruct (getOverGeo ctxt src)|].
  split; [done|].
  assert (Hv : ∀ w, m_usdPointsForRead w = UsdGeomPoints_default →
            isValid w = schema_valid (m_usdPointsForWrite w)).
  { intros w Hrd. unfold isValid. rewrite Hrd. apply orb_false_r. }
  rewrite Hv by done. cbn [m_usdPointsForWrite].
  split; [done|]. split; [apply updateFromGTPrim_runs|].
  intros Hw. by apply updateFromGTPrim_invalid.
Qed.

End Lifecycle.

(** * The scaling of widths, value by value *)

(** ** Rounding of any binary32 value *)

Section F32Rounding.

Local Open Scope Z_scope.

Lemma iter_pos_nat {A : Type} (f : A → A) (p : positive) (x : A) :
  SpecFloat.iter_pos f p x = Nat.iter (Pos.to_nat p) f x.
Proof.
  revert x. induction p as [p IH|p IH|]; intros x; cbn [SpecFloat.iter_pos].
  - rewrite !IH, Pos2Nat.inj_xI.
    replace (S (2 * Pos.to_nat p)) with (Pos.to_nat p + (Pos.to_nat p + 1))%nat by lia.
    by rewrite !Nat.iter_add.
  - rewrite !IH, Pos2Nat.inj_xO.
    replace (2 * Pos.to_nat p)%nat with (Pos.to_nat p + Pos.to_nat p)%nat by lia.
    by rewrite Nat.iter_add.
  - reflexivity.
Qed.

Lemma iter_shr_shl (m : positive) (k : nat) :
  Nat.iter k shr_1 (Build_shr_record (Zpos (F32.shl m k)) false false)
  = Build_shr_record (Zpos m) false false.
Proof.
  induction k as [|k IH]; [reflexivity|].
  rewrite Nat.iter_succ_r. cbn [F32.shl]. exact IH.
Qed.

Lemma shifted_shl (m : positive) (k : nat) :
  F32.shifted (Z.of_nat k) (F32.shl m k) = Build_shr_record (Zpos m) false false.
Proof.
  unfold F32.shifted. destruct k as [|k]; [reflexivity|].
  change (Z.of_nat (S k)) with (Zpos (Pos.of_succ_nat k)). cbv iota.
  rewrite iter_pos_nat, SuccNat2Pos.id_succ. apply iter_shr_shl.
Qed.

Lemma shl_xO (m : positive) (k : nat) : F32.shl (xO m) k = F32.shl m (S k).
Proof. induction k as [|k IH]; [reflexivity|]. cbn [F32.shl]. by rewrite IH. Qed.

Lemma iter_xO_shl (p m : positive) : Pos.iter xO m p = F32.shl m (Pos.to_nat p).
Proof.
  rewrite Pos2Nat.inj_iter.
  induction (Pos.to_nat p) as [|k IH]; [reflexivity|]. cbn. by rewrite IH.
Qed.

Lemma digits2_succ (k : positive) :
  Zpos (digits2_pos (Pos.succ k)) <= Zpos (digits2_pos k) + 1.
Proof.
  induction k as [k IH|k IH|].
  - change (Pos.succ (xI k)) with (xO (Pos.succ k)). cbn [digits2_pos].
    rewrite !Pos2Z.inj_succ. lia.
  - change (Pos.succ (xO k)) with (xI k). cbn [digits2_pos]. lia.
  - vm_compute. discriminate.
Qed.

(** Rounding is exact on a mantissa [M] followed by [k] zero bits when [M]
    is canonical at the exponent reached after the shift, normal or not. *)
Lemma binary_round_aux_shift (prec emax : Z) (s : bool) (M : positive) (E : Z) (k : nat) :
  fexp prec emax (Zpos (digits2_pos M) + E) = E →
  E <= emax - prec →
  binary_round_aux prec emax s (Zpos (F32.shl M k)) (E - Z.of_nat k) loc_Exact
  = S754_finite s M E.
Proof.
  intros HE Hmax. unfold binary_round_aux, shr_fexp.
  cbn [Zdigits2 shr_record_of_loc]. rewrite digits2_shl.
  replace (Zpos (digits2_pos M) + Z.of_nat k + (E - Z.of_nat k))
    with (Zpos (digits2_pos M) + E) by lia.
  rewrite HE. replace (E - (E - Z.of_nat k)) with (Z.of_nat k) by lia.
  assert (Hs : shr (Build_shr_record (Zpos (F32.shl M k)) false false) (E - Z.of_nat k)
                 (Z.of_nat k)
               = (Build_shr_record (Zpos M) false false, E)).
  { pose proof (shifted_shl M k) as Hshr. unfold shr. unfold F32.shifted in Hshr.
    destruct (Z.of_nat k) as [|p|p] eqn:Hk; try lia.
    - rewrite Hshr. f_equal. lia.
    - rewrite Hshr. f_equal. lia. }
  rewrite Hs. cbn [shr_m loc_of_shr_record round_nearest_even Zdigits2 shr_record_of_loc].
  rewrite HE, Z.sub_diag. cbn [shr shr_m].
  destruct (Z.leb_spec E (emax - prec)); [reflexivity|lia].
Qed.

(** The binary32 values: a finite one has a mantissa of 24 digits, or
    fewer at the lowest exponent. *)
Lemma valid_binary32_finite (s : bool) (m : positive) (e : Z) :
  Binary32.is_binary32 (S754_finite s m e) = true →
  (Zpos (digits2_pos m) = 24 ∧ -149 < e <= 104)
  ∨ (Zpos (digits2_pos m) <= 24 ∧ e = -149).
Proof.
  unfold Binary32.is_binary32, F32.prec, F32.emax, valid_binary, bounded,
    canonical_mantissa, fexp, emin.
  intros [Hc He]%andb_true_iff. apply Z.eqb_eq in Hc. apply Z.leb_le in He. lia.
Qed.

(** Promotion to [double] is exact. *)
Lemma convert_double (s : bool) (m : positive) (e : Z) (j : nat) :
  Zpos (digits2_pos m) + Z.of_nat j = 53 → (0 < j)%nat → -149 <= e <= 104 →
  F32.convert 53 1024 (S754_finite s m e) = S754_finite s (F32.shl m j) (e - Z.of_nat j).
Proof.
  intros Hd Hj He. unfold F32.convert, binary_round, shl_align.
  assert (Hf : fexp 53 1024 (Zpos (digits2_pos m) + e) = e - Z.of_nat j).
  { unfold fexp, emin. lia. }
  rewrite Hf.
  destruct (e - Z.of_nat j - e) as [|p|p] eqn:Hp; try lia.
  rewrite iter_xO_shl. replace (Pos.to_nat p) with j by lia.
  change (F32.shl m j) with (F32.shl (F32.shl m j) 0) at 1.
  replace (e - Z.of_nat j) with (e - Z.of_nat j - Z.of_nat 0) at 1 by lia.
  apply binary_round_aux_shift; [|lia].
  rewrite digits2_shl. unfold fexp, emin. lia.
Qed.

(** The product with [.5] in [double] lowers the exponent. *)
Lemma half_in_double (s : bool) (M : positive) (E : Z) :
  Zpos (digits2_pos M) = 53 → -1073 <= E <= 972 →
  SFmul 53 1024 (S754_finite s M E) F32.half_double = S754_finite s M (E - 1).
Proof.
  intros Hd HE.
  change F32.half_double with (S754_finite false 4503599627370496 (-53)).
  cbn [SFmul]. rewrite Pos.mul_comm, Bool.xorb_false_r.
  change (4503599627370496 * M)%positive with (F32.shl M 52).
  replace (E + -53) with (E - 1 - Z.of_nat 52) by lia.
  apply binary_round_aux_shift; [|lia]. rewrite Hd. unfold fexp, emin. lia.
Qed.

(** Narrowing to binary32 at the lowest exponent drops one bit of the
    mantissa and rounds to nearest, ties to even. *)
Lemma narrow_lowest (s : bool) (m : positive) (j : nat) :
  Zpos (digits2_pos m) + Z.of_nat j = 53 → Zpos (digits2_pos m) <= 24 →
  F32.convert 24 128 (S754_finite s (F32.shl m j) (-150 - Z.of_nat j))
  = match m with
    | xO k => S754_finite s k (-149)
    | xI k => S754_finite s (match k with xO _ => k | _ => Pos.succ k end) (-149)
    | xH => S754_zero s
    end.
Proof.
  intros Hd Hm. unfold F32.convert, binary_round, shl_align.
  assert (Hf : fexp 24 128 (Zpos (digits2_pos (F32.shl m j)) + (-150 - Z.of_nat j)) = -149).
  { rewrite digits2_shl. unfold fexp, emin. lia. }
  rewrite Hf.
  destruct (-149 - (-150 - Z.of_nat j)) as [|p|p] eqn:Hp; try lia.
  unfold binary_round_aux, shr_fexp. cbn [Zdigits2 shr_record_of_loc].
  rewrite Hf, Hp. unfold shr at 1.
  rewrite iter_pos_nat. replace (Pos.to_nat p) with (S j) by lia.
  rewrite Nat.iter_succ, iter_shr_shl.
  replace (-150 - Z.of_nat j + Z.pos p) with (-149) by lia.
  assert (Hlow : ∀ k : positive, Zpos (digits2_pos k) <= 24 →
            fexp 24 128 (Zpos (digits2_pos k) + -149) - -149 = 0).
  { intros k Hk. unfold fexp, emin. lia. }
  destruct m as [k|k|]; cbn [shr_1 orb shr_m shr_r shr_s loc_of_shr_record].
  - cbn [digits2_pos] in Hm. rewrite Pos2Z.inj_succ in Hm.
    pose proof (digits2_succ k) as Hs.
    assert (Hr : round_nearest_even (Zpos k) (loc_Inexact Eq)
                 = Zpos (match k with xO _ => k | _ => Pos.succ k end)).
    { destruct k; cbn [round_nearest_even Z.even]; lia. }
    rewrite Hr. cbn [Zdigits2 shr_record_of_loc].
    rewrite Hlow by (destruct k; lia). reflexivity.
  - cbn [digits2_pos] in Hm. rewrite Pos2Z.inj_succ in Hm.
    cbn [round_nearest_even Zdigits2 shr_record_of_loc].
    rewrite Hlow by lia. reflexivity.
  - reflexivity.
Qed.

(** [x * .5] on the binary32 values of the lowest exponent. *)
Lemma mul_half_lowest (s : bool) (m : positive) :
  Zpos (digits2_pos m) <= 24 →
  F32.mul_half (S754_finite s m (-149))
  = match m with
    | xO k => S754_finite s k (-149)
    | xI k => S754_finite s (match k with xO _ => k | _ => Pos.succ k end) (-149)
    | xH => S754_zero s
    end.
Proof.
  intros Hm. unfold F32.mul_half, F32.prec, F32.emax, F32.prec_double, F32.emax_double.
  set (j := Z.to_nat (53 - Zpos (digits2_pos m))).
  assert (Hj : Zpos (digits2_pos m) + Z.of_nat j = 53) by (subst j; lia).
  rewrite (convert_double s m (-149) j) by lia.
  rewrite half_in_double by (rewrite ?digits2_shl; lia).
  replace (-149 - Z.of_nat j - 1) with (-150 - Z.of_nat j) by lia.
  by apply narrow_lowest.
Qed.

(** [2.0 * x] on the subnormal binary32 values. *)
Lemma mul_two_subnormal (s : bool) (m : positive) :
  Zpos (digits2_pos m) < 24 →
  F32.mul_two (S754_finite s m (-149)) = S754_finite s (xO m) (-149).
Proof.
  intros Hm. unfold F32.mul_two, F32.prec, F32.emax.
  change F32.two with (S754_finite false 8388608 (-22)).
  cbn [SFmul xorb].
  change (8388608 * m)%positive with (F32.shl (xO m) 22).
  change (-22 + -149) with (-149 - Z.of_nat 22).
  apply binary_round_aux_shift; [|lia].
  cbn [digits2_pos]. rewrite Pos2Z.inj_succ. unfold fexp, emin. lia.
Qed.


(** [2.0 * x] in the top binade. *)
Lemma mul_two_top (s : bool) (m : positive) :
  Zpos (digits2_pos m) = 24 → F32.mul_two (S754_finite s m 104) = S754_infinity s.
Proof.
  intros Hd. unfold F32.mul_two, F32.prec, F32.emax.
  change F32.two with (S754_finite false 8388608 (-22)).
  cbn [SFmul xorb].
  change (8388608 * m)%positive with (F32.shl m 23).
  change (-22 + 104) with (105 - 23).
  apply (binary_round_aux_overflow 24 128 s m);
    first [ unfold emin; lia
          | rewrite digits2_shl, Hd; reflexivity
          | exact Hd
          | vm_compute; reflexivity ].
Qed.

(** What [x * .5] stores, for every binary32 value [x]. *)
Lemma mul_half_binary32 (x : spec_float) :
  Binary32.is_binary32 x = true →
  match x with
  | S754_finite s m e =>
      if decide (-149 < e) then F32.mul_half x = S754_finite s m (e - 1)
      else match m with
           | xO k => F32.mul_half x = S754_finite s k e
           | xI k =>
               F32.mul_half x
               = S754_finite s (match k with xO _ => k | _ => Pos.succ k end) e
           | xH => F32.mul_half x = S754_zero s
           end
  | _ => F32.mul_half x = x
  end.
Proof.
  destruct x as [s|s| |s m e]; intros Hx; try (by destruct s); [reflexivity|].
  destruct (valid_binary32_finite s m e Hx) as [[Hd He]|[Hd ->]].
  - rewrite decide_True by lia. apply mul_half_exact; [|lia].
    apply Pos2Z.inj. exact Hd.
  - rewrite decide_False by lia.
    pose proof (mul_half_lowest s m Hd) as H. by destruct m.
Qed.

(** What [2.0 * x] gives, for every binary32 value [x]. *)
Lemma mul_two_binary32 (x : spec_float) :
  Binary32.is_binary32 x = true →
  match x with
  | S754_finite s m e =>
      if decide (Zpos (digits2_pos m) < 24) then F32.mul_two x = S754_finite s (xO m) e
      else if decide (e < 104) then F32.mul_two x = S754_finite s m (e + 1)
      else F32.mul_two x = S754_infinity s
  | _ => F32.mul_two x = x
  end.
Proof.
  destruct x as [s|s| |s m e]; intros Hx; try (by destruct s); [reflexivity|].
  destruct (valid_binary32_finite s m e Hx) as [[Hd He]|[Hd ->]].
  - rewrite decide_False by lia. case_decide.
    + apply mul_two_exact; [|lia]. apply Pos2Z.inj. exact Hd.
    + replace e with 104 by lia. by apply mul_two_top.
  - case_decide; [by apply mul_two_subnormal|].
    rewrite decide_True by lia. apply mul_two_exact; [|lia].
    apply Pos2Z.inj. lia.
Qed.

End F32Rounding.

(** ** The numbers behind the values *)

Section ValueFacts.

Local Open Scope Z_scope.

Lemma value_exponent_pred (s : bool) (m : positive) (e : Z) :
  ∃ p q, Binary32.value (S754_finite s m (e - 1)) = Some p
         ∧ Binary32.value (S754_finite s m e) = Some q
         ∧ Qeq p (q * (1 # 2)).
Proof.
  do 2 eexists. split; [reflexivity|]. split; [reflexivity|].
  replace (e - 1) with (e + -1) by lia.
  rewrite Qpower_plus by discriminate.
  change (Qpower 2 (-1)) with (1 # 2)%Q. ring.
Qed.

Lemma value_exponent_succ (s : bool) (m : positive) (e : Z) :
  ∃ p q, Binary32.value (S754_finite s m (e + 1)) = Some p
         ∧ Binary32.value (S754_finite s m e) = Some q
         ∧ Qeq p (q * 2).
Proof.
  do 2 eexists. split; [reflexivity|]. split; [reflexivity|].
  rewrite Qpower_plus by discriminate.
  change (Qpower 2 1) with 2%Q. ring.
Qed.

Lemma value_even_mantissa (s : bool) (k : positive) (e : Z) :
  ∃ p q, Binary32.value (S754_finite s k e) = Some p
         ∧ Binary32.value (S754_finite s (xO k) e) = Some q
         ∧ Qeq p (q * (1 # 2)) ∧ Qeq q (p * 2).
Proof.
  do 2 eexists. split; [reflexivity|]. split; [reflexivity|].
  assert (H : Qeq (inject_Z (Zpos (xO k))) (2 * inject_Z (Zpos k))).
  { unfold Qeq, inject_Z, Qmult. cbn [Qnum Qden]. lia. }
  split; rewrite H; field.
Qed.


(** Half of the number, whenever half of it is a binary32 value. *)
Lemma mul_half_value (x : spec_float) (q : Q) :
  Binary32.is_binary32 x = true →
  Binary32.halves_exactly x = true →
  Binary32.value x = Some q →
  ∃ p, Binary32.value (F32.mul_half x) = Some p ∧ Qeq p (q * (1 # 2)).
Proof.
  intros Hx Hh Hq. pose proof (mul_half_binary32 x Hx) as Hm.
  destruct x as [s|s| |s m e]; try discriminate Hq.
  - rewrite Hm. injection Hq as <-. exists 0%Q. split; [reflexivity|]. ring.
  - cbn [Binary32.halves_exactly] in Hh. case_decide.
    + rewrite Hm. destruct (value_exponent_pred s m e) as (p & q' & Hp & Hq' & Heq).
      exists p. split; [exact Hp|]. congruence.
    + destruct m as [k|k|].
      * apply orb_true_iff in Hh as [Hh|Hh]; [apply Z.ltb_lt in Hh; lia|discriminate Hh].
      * rewrite Hm. destruct (value_even_mantissa s k e) as (p & q' & Hp & Hq' & Heq & _).
        exists p. split; [exact Hp|]. congruence.
      * apply orb_true_iff in Hh as [Hh|Hh]; [apply Z.ltb_lt in Hh; lia|discriminate Hh].
Qed.

(** Twice the number, whenever twice the value is finite. *)
Lemma mul_two_value (x : spec_float) (q : Q) :
  Binary32.is_binary32 x = true →
  Binary32.doubles_finitely x = true →
  Binary32.value x = Some q →
  ∃ p, Binary32.value (F32.mul_two x) = Some p ∧ Qeq p (q * 2).
Proof.
  intros Hx Hf Hq. pose proof (mul_two_binary32 x Hx) as Hm.
  destruct x as [s|s| |s m e]; try discriminate Hq.
  - rewrite Hm. injection Hq as <-. exists 0%Q. split; [reflexivity|]. ring.
  - cbn [Binary32.doubles_finitely] in Hf. apply Z.ltb_lt in Hf.
    case_decide.
    + rewrite Hm. destruct (value_even_mantissa s m e) as (p & q' & Hp & Hq' & _ & Heq).
      exists q'. split; [exact Hq'|]. congruence.
    + rewrite decide_True in Hm by lia. rewrite Hm.
      destruct (value_exponent_succ s m e) as (p & q' & Hp & Hq' & Heq).
      exists p. split; [exact Hp|]. congruence.
Qed.

End ValueFacts.

(** * The optional attributes and the widths on every input *)

(** ** What the three blocks of the read path leave in the point list *)

Section ReadBlocks.

Context {base_state GT_RefineParms : Type}.

Implicit Types (w : GusdPointsWrapper base_state) (g : UsdGeomPoints).
Implicit Types (pos buf : VtArray GfVec3f) (attrs : GT_AttributeList).

Local Abbreviation refine_normals := (@refine_normals base_state GT_RefineParms).
Local Abbreviation refine_velocities := (@refine_velocities base_state GT_RefineParms).
Local Abbreviation refine_widths := (@refine_widths base_state GT_RefineParms).
Local Abbreviation optional_blocks := (@optional_blocks base_state GT_RefineParms).

Lemma refine_normals_result w g pos buf attrs :
  get attrs "N" = None →
  let got :=
    if is_authored g UsdGeomTokens.normals
    then Get_Vec3fArray (GetNormalsAttr g) buf (m_time w) else buf in
  result (refine_normals w g pos buf attrs)
  = (got,
     attrs ++ (if is_authored g UsdGeomTokens.normals
                  && bool_decide (length pos ≤ length got)
               then [("N", GusdGT_VtArray got GT_TYPE_NORMAL)] else [])).
Proof.
  intros Hfresh got. subst got.
  destruct (is_authored g UsdGeomTokens.normals) eqn:Ha.
  - pose proof (refine_normals_fetch (GT_RefineParms := GT_RefineParms) w g pos buf attrs Ha)
      as H.
    cbn zeta in H. rewrite H. cbn [andb]. case_decide.
    + rewrite bool_decide_eq_false_2 by lia. by rewrite app_nil_r.
    + rewrite bool_decide_eq_true_2 by lia. cbn [result fst].
      by rewrite addAttribute_fresh.
  - rewrite (refine_normals_skip (GT_RefineParms := GT_RefineParms) w g pos buf attrs Ha).
    cbn [andb result fst]. by rewrite app_nil_r.
Qed.

Lemma refine_velocities_result w g pos buf attrs :
  get attrs "v" = None →
  let got :=
    if is_authored g UsdGeomTokens.velocities
    then Get_Vec3fArray (GetVelocitiesAttr g) buf (m_time w) else buf in
  result (refine_velocities w g pos buf attrs)
  = (got,
     attrs ++ (if is_authored g UsdGeomTokens.velocities
                  && bool_decide (length pos ≤ length got)
               then [("v", GusdGT_VtArray got GT_TYPE_VECTOR)] else [])).
Proof.
  intros Hfresh got. subst got.
  destruct (is_authored g UsdGeomTokens.velocities) eqn:Ha.
  - pose proof (refine_velocities_fetch (GT_RefineParms := GT_RefineParms) w g pos buf attrs Ha)
      as H.
    cbn zeta in H. rewrite H. cbn [andb]. case_decide.
    + rewrite bool_decide_eq_false_2 by lia. by rewrite app_nil_r.
    + rewrite bool_decide_eq_true_2 by lia. cbn [result fst].
      by rewrite addAttribute_fresh.
  - rewrite (refine_velocities_skip (GT_RefineParms := GT_RefineParms) w g pos buf attrs Ha).
    cbn [andb result fst]. by rewrite app_nil_r.
Qed.

Lemma refine_widths_result w g pos (fbuf : VtArray fpreal32) attrs :
  get attrs "pscale" = None →
  let got :=
    if is_authored g UsdGeomTokens.widths
    then Get_FloatArray (GetWidthsAttr g) fbuf (m_time w) else fbuf in
  result (refine_widths w g pos fbuf attrs)
  = (got,
     attrs ++ (if is_authored g UsdGeomTokens.widths
                  && bool_decide (length pos ≤ length got)
               then [("pscale", GT_Real32Array (map F32.mul_half got) 1)] else [])).
Proof.
  intros Hfresh got. subst got.
  destruct (is_authored g UsdGeomTokens.widths) eqn:Ha.
  - pose proof (refine_widths_fetch (GT_RefineParms := GT_RefineParms) w g pos fbuf attrs Ha)
      as H.
    cbn zeta in H. rewrite H. cbn [andb]. case_decide.
    + rewrite bool_decide_eq_false_2 by lia. by rewrite app_nil_r.
    + rewrite bool_decide_eq_true_2 by lia. cbn [result fst].
      by rewrite addAttribute_fresh.
  - rewrite (refine_widths_skip (GT_RefineParms := GT_RefineParms) w g pos fbuf attrs Ha).
    cbn [andb result fst]. by rewrite app_nil_r.
Qed.

(** The point list after the three blocks, written out. *)
Lemma optional_blocks_result w :
  let g := m_usdPointsForRead w in
  let t := m_time w in
  let n := length (usdPoints_read w) in
  let normals_read :=
    if is_authored g UsdGeomTokens.normals
    then Get_Vec3fArray (GetNormalsAttr g) [] t else [] in
  let velocities_read :=
    if is_authored g UsdGeomTokens.velocities
    then Get_Vec3fArray (GetVelocitiesAttr g) normals_read t else normals_read in
  let widths_read :=
    if is_authored g UsdGeomTokens.widths
    then Get_FloatArray (GetWidthsAttr g) [] t else [] in
  result (optional_blocks w)
  = ("P", GusdGT_VtArray (usdPoints_read w) GT_TYPE_POINT)
    :: (if is_authored g UsdGeomTokens.normals && bool_decide (n ≤ length normals_read)
        then [("N", GusdGT_VtArray normals_read GT_TYPE_NORMAL)] else [])
    ++ (if is_authored g UsdGeomTokens.velocities
           && bool_decide (n ≤ length velocities_read)
        then [("v", GusdGT_VtArray velocities_read GT_TYPE_VECTOR)] else [])
    ++ (if is_authored g UsdGeomTokens.widths && bool_decide (n ≤ length widths_read)
        then [("pscale", GT_Real32Array (map F32.mul_half widths_read) 1)] else []).
Proof.
  intros g t n normals_read velocities_read widths_read.
  unfold optional_blocks. cbn [result fst].
  fold g. fold t. fold n.
  rewrite (refine_normals_result w g (usdPoints_read w) [] _) by reflexivity.
  cbn zeta. fold t normals_read. cbn [fst snd].
  rewrite (refine_velocities_result w g (usdPoints_read w) normals_read _)
    by (by destruct (_ && _)).
  cbn zeta. fold t velocities_read. cbn [fst snd].
  rewrite (refine_widths_result w g (usdPoints_read w) [] _)
    by (by destruct (_ && _), (_ && _)).
  cbn zeta. fold t widths_read. cbn [fst snd].
  unfold GT_AttributeList_new, addAttribute. fold n.
  by rewrite <- !app_assoc.
Qed.

End ReadBlocks.

(** ** Claims about the widths on the read path and the viewport shortcut *)

Section ReadValues.

Context {base_state : Type}.
Context {GT_RefineParms : Type}.
Variable useViewportLOD : option GT_RefineParms -> bool.
Variable loadPrimvars :
  UsdTimeCode -> option GT_RefineParms -> nat -> nat -> nat -> string ->
  PrimvarTargets -> PrimvarTargets.

Implicit Types (w : GusdPointsWrapper base_state) (parms : option GT_RefineParms).

Local Abbreviation refine := (refine useViewportLOD loadPrimvars).
Local Abbreviation optional_blocks := (@optional_blocks base_state GT_RefineParms).

(** C1.  On the read path, when [refine] accepts the authored widths array
    (the wrapper is valid, positions exist, the viewport shortcut is off, and
    the array is at least as long as the position array), the array stored in
    the point attribute list under the name [pscale] has tuple size one, has
    as many entries as the widths array, and holds at each index the width
    at that index times [.5], the product narrowed to single precision.
    For a width that is a binary32 value this is: the same zero, infinity
    or NaN; the same sign and mantissa with the exponent lowered by one
    when the exponent is above the lowest one; and at the lowest exponent
    the mantissa divided by two, rounded to the nearest integer with ties
    to even (a zero for the smallest subnormal number).  Whenever half of
    the width is a binary32 value, the number stored is the width's number
    times one half. *)
Theorem C1_pscale_is_half_width w parms (widths : VtArray fpreal32) :
  isValid w = true →
  attr_valid (GetPointsAttr (m_usdPointsForRead w)) = true →
  useViewportLOD parms = false →
  attr_valid (GetWidthsAttr (m_usdPointsForRead w)) = true →
  HasAuthoredValueOpinion (GetWidthsAttr (m_usdPointsForRead w)) = true →
  attr_value (GetWidthsAttr (m_usdPointsForRead w)) (m_time w) = Some (VtFloatArray widths) →
  length (usdPoints_read w) ≤ length widths →
  ∃ built pscale,
    lists_before_primvars (trace (refine w parms)) = [built]
    ∧ get built "pscale" = Some (GT_Real32Array pscale 1)
    ∧ length pscale = length widths
    ∧ (∀ i x, widths !! i = Some x → pscale !! i = Some (F32.mul_half x))
    ∧ (∀ i x, widths !! i = Some x → Binary32.is_binary32 x = true →
         ∃ y, pscale !! i = Some y
           ∧ match x with
             | S754_finite s m e =>
                 if decide (-149 < e)%Z then y = S754_finite s m (e - 1)
                 else match m with
                      | xO k => y = S754_finite s k e
                      | xI k =>
                          y = S754_finite s (match k with xO _ => k | _ => Pos.succ k end) e
                      | xH => y = S754_zero s
                      end
             | _ => y = x
             end
           ∧ (∀ q, Binary32.value x = Some q → Binary32.halves_exactly x = true →
                ∃ p, Binary32.value y = Some p ∧ Qeq p (q * (1 # 2)))).
Proof.
  intros Hw Hp Hlod Hv Ha Hval Hlen.
  exists (result (optional_blocks w)), (map F32.mul_half widths).
  split; [by apply refine_full_lists|].
  split; [by apply (built_widths (GT_RefineParms := GT_RefineParms) w widths Hv Ha Hval)|].
  split; [apply length_map|].
  split; [intros i x Hx; by apply lookup_map_Some|].
  intros i x Hx Hbin. exists (F32.mul_half x).
  split; [by apply lookup_map_Some|]. split.
  - exact (mul_half_binary32 x Hbin).
  - intros q Hq Hh. by apply mul_half_value.
Qed.

(** C7.  For a valid wrapper with positions: when the viewport shortcut
    applies, [refine] fetches the positions only, never calls
    [loadPrimvars], and the primitive it produces holds the single point
    attribute [P] and no detail attribute.  When the shortcut does not
    apply, every one of normals, velocities and widths that is valid and
    authored is fetched, and the point list that [refine] builds holds [P]
    followed by [N], [v] and [pscale], each bound to what its block read
    (halved for the widths) exactly when the attribute is valid and
    authored and the block has at least as many values as there are
    positions; [loadPrimvars] is called once with this point list and the
    detail list as its point-rate and constant-rate targets (and no vertex
    or primitive target), and the primitive produced holds the lists that
    call returns.  What a block read is what [Get] put into its buffer:
    the normals block starts from an empty buffer, the velocities block
    from the buffer the normals block left, the widths block from an empty
    buffer of its own. *)
Theorem C7_viewport_shortcut w parms :
  isValid w = true →
  attr_valid (GetPointsAttr (m_usdPointsForRead w)) = true →
  let r := refine w parms in
  let g := m_usdPointsForRead w in
  let t := m_time w in
  let n := length (usdPoints_read w) in
  let P := GusdGT_VtArray (usdPoints_read w) GT_TYPE_POINT in
  (useViewportLOD parms = true →
     attributes_read (trace r) = [UsdGeomTokens.points]
     ∧ lists_before_primvars (trace r) = []
     ∧ added_primitives (trace r) = [GT_PrimPointMesh [("P", P)] []])
  ∧ (useViewportLOD parms = false →
     attributes_read (trace r) =
       UsdGeomTokens.points
       :: filter (fun name => is_authored g name = true)
            [UsdGeomTokens.normals; UsdGeomTokens.velocities; UsdGeomTokens.widths]
     ∧ ∃ built,
         LoadPrimvars t parms 0 n 0 (GetPath (GetPrim g)) (primvar_targets built)
           ∈ trace r
         ∧ lists_before_primvars (trace r) = [built]
         ∧ get built "P" = Some P
         ∧ (let normals_read :=
              if is_authored g UsdGeomTokens.normals
              then Get_Vec3fArray (GetNormalsAttr g) [] t else [] in
            let velocities_read :=
              if is_authored g UsdGeomTokens.velocities
              then Get_Vec3fArray (GetVelocitiesAttr g) normals_read t
              else normals_read in
            let widths_read :=
              if is_authored g UsdGeomTokens.widths
              then Get_FloatArray (GetWidthsAttr g) [] t else [] in
            built =
              ("P", P)
              :: (if is_authored g UsdGeomTokens.normals
                     && bool_decide (n ≤ length normals_read)
                  then [("N", GusdGT_VtArray normals_read GT_TYPE_NORMAL)] else [])
              ++ (if is_authored g UsdGeomTokens.velocities
                     && bool_decide (n ≤ length velocities_read)
                  then [("v", GusdGT_VtArray velocities_read GT_TYPE_VECTOR)] else [])
              ++ (if is_authored g UsdGeomTokens.widths
                     && bool_decide (n ≤ length widths_read)
                  then [("pscale", GT_Real32Array (map F32.mul_half widths_read) 1)]
                  else []))
         ∧ (let loaded :=
              loadPrimvars t parms 0 n 0 (GetPath (GetPrim g)) (primvar_targets built) in
            added_primitives (trace r) =
              [GT_PrimPointMesh (default built (tgt_point loaded))
                                (default GT_AttributeList_new (tgt_constant loaded))])).
Proof.
  intros Hw Hp r g t n P. split; intros Hlod.
  - subst r. by rewrite (refine_viewport _ _ w parms Hw Hp Hlod).
  - split.
    + subst r. rewrite (refine_full _ _ w parms Hw Hp Hlod). cbn [trace snd].
      change (?a :: ?l ++ ?l') with ([a] ++ l ++ l').
      rewrite !attributes_read_app, attributes_read_blocks. cbn.
      by rewrite app_nil_r.
    + exists (result (optional_blocks w)).
      split.
      { subst r. rewrite (refine_full _ _ w parms Hw Hp Hlod). cbn [trace snd].
        in_trace. }
      split; [by apply refine_full_lists|].
      split; [apply built_positions|].
      split; [apply optional_blocks_result|].
      by apply refine_full_added.
Qed.

End ReadValues.

(** ** The claim about the widths on the write path *)

Section WriteValues.

Context {base_state UT_Matrix4D GfMatrix4d GusdSimpleXformCache : Type}.
Variable GetParent : UsdPrim -> UsdPrim.
Variable computeTransform :
  UsdPrim -> UsdTimeCode -> UT_Matrix4D -> GusdSimpleXformCache ->
  GfMatrix4d * GusdSimpleXformCache.
Variable getExtentsArray : GT_Primitive -> option GT_DataArray.
Variable s_ownerToUsdInterp : GT_Owner -> TfToken.
Variable base_updateFromGTPrim :
  GT_Primitive -> UT_Matrix4D -> GusdContext -> GusdSimpleXformCache ->
  bool * GusdSimpleXformCache.

Implicit Types (w : GusdPointsWrapper base_state) (src : GT_Primitive).
Implicit Types (xf : UT_Matrix4D) (ctxt : GusdContext) (cache : GusdSimpleXformCache).

Local Abbreviation updateFromGTPrim :=
  (updateFromGTPrim GetParent computeTransform getExtentsArray s_ownerToUsdInterp
     base_updateFromGTPrim).

(** C2, amended.  On a valid write prim the widths attribute is updated
    exactly once.  The array written is the source's [widths] attribute as
    it is when the source has one.  When the source has no [widths] but a
    [pscale] of tuple size one, it is a fresh array of tuple size one that
    holds every [pscale] value times two in single precision.  For a
    [pscale] value that is a binary32 value this is: the same zero,
    infinity or NaN; for a subnormal number the same sign and exponent
    with the mantissa doubled; for a normal number the same sign and
    mantissa with the exponent raised by one, and the infinity of the same
    sign in the top binade.  Whenever twice the value is finite, the
    number written is the value's number times two.  A [pscale] of any
    other tuple size is written as it is, and with neither attribute the
    update receives a null handle. *)
Theorem C2_scale_back_of_pscale w src xf ctxt cache :
  schema_valid (m_usdPointsForWrite w) = true →
  ∃ owner houAttr,
    updates_of UsdGeomTokens.widths (trace (updateFromGTPrim w src xf ctxt cache))
      = [(owner, "widths", houAttr, time ctxt)]
    ∧ (∀ a, (findAttribute src "widths").1 = Some a → houAttr = Some a)
    ∧ (∀ a, (findAttribute src "widths").1 = None →
            (findAttribute src "pscale").1 = Some a →
            (getTupleSize a = 1 →
               ∃ d, houAttr = Some (GT_Real32Array d 1)
                    ∧ length d = length (flat_data a)
                    ∧ (∀ i x, flat_data a !! i = Some x → d !! i = Some (F32.mul_two x))
                    ∧ (∀ i x, flat_data a !! i = Some x → Binary32.is_binary32 x = true →
                         ∃ y, d !! i = Some y
                           ∧ match x with
                             | S754_finite s m e =>
                                 if decide (Zpos (digits2_pos m) < 24)%Z
                                 then y = S754_finite s (xO m) e
                                 else if decide (e < 104)%Z
                                      then y = S754_finite s m (e + 1)
                                      else y = S754_infinity s
                             | _ => y = x
                             end
                           ∧ (∀ q, Binary32.value x = Some q →
                                   Binary32.doubles_finitely x = true →
                                   ∃ p, Binary32.value y = Some p ∧ Qeq p (q * 2))))
            ∧ (getTupleSize a ≠ 1 → houAttr = Some a))
    ∧ ((findAttribute src "widths").1 = None →
       (findAttribute src "pscale").1 = None → houAttr = None).
Proof.
  intros Hw. exists (widths_source src).2, (widths_source src).1.
  split; [by apply widths_updates|].
  unfold widths_source.
  destruct (findAttribute src "widths") as [[aw|] ow];
    destruct (findAttribute src "pscale") as [[ap|] op]; cbn [fst snd].
  - repeat split; try done; by intros a [= ->].
  - repeat split; try done; by intros a [= ->].
  - split; [done|]. split; [|done]. intros a _ [= <-].
    destruct (decide (getTupleSize ap = 1)) as [Hts|Hts]; cbn [fst]; (split; [|done]).
    + intros _. eexists. split; [done|].
      rewrite (fillArray_tuple1 ap Hts). split; [apply length_map|].
      split; [intros i x Hx; by apply lookup_map_Some|].
      intros i x Hx Hbin. exists (F32.mul_two x).
      split; [by apply lookup_map_Some|]. split.
      * exact (mul_two_binary32 x Hbin).
      * intros q Hq Hf. by apply mul_two_value.
    + done.
  - repeat split; done.
Qed.

End WriteValues.

(** ** Concrete runs of the claims above *)

Lemma C1_pscale_is_half_width_witness :
  (isValid Scene.reader = true
   ∧ attr_valid (GetPointsAttr (m_usdPointsForRead Scene.reader)) = true
   ∧ Scene.useViewportLOD None = false
   ∧ attr_valid (GetWidthsAttr (m_usdPointsForRead Scene.reader)) = true
   ∧ HasAuthoredValueOpinion (GetWidthsAttr (m_usdPointsForRead Scene.reader)) = true
   ∧ attr_value (GetWidthsAttr (m_usdPointsForRead Scene.reader)) (m_time Scene.reader)
     = Some (VtFloatArray [F32.one; F32.half; F32.min_subnormal])
   ∧ length (usdPoints_read Scene.reader) ≤ 3)
  ∧ ∃ built pscale,
      lists_before_primvars (trace (Scene.refine Scene.reader None)) = [built]
      ∧ get built "pscale" = Some (GT_Real32Array pscale 1)
      ∧ length pscale = 3
      ∧ pscale !! 0 = Some (S754_finite false 8388608 (-24))
      ∧ pscale !! 1 = Some (S754_finite false 8388608 (-25))
      ∧ pscale !! 2 = Some (S754_zero false)
      ∧ ∃ y p, pscale !! 0 = Some y ∧ Binary32.value y = Some p ∧ Qeq p (1 # 2).
Proof.
  split.
  - repeat split; try reflexivity. vm_compute. lia.
  - destruct (C1_pscale_is_half_width Scene.useViewportLOD Scene.loadPrimvars
                Scene.reader None [F32.one; F32.half; F32.min_subnormal]
                eq_refl eq_refl eq_refl eq_refl eq_refl eq_refl)
      as (built & pscale & Hl & Hg & Hlen & _ & Hval); [vm_compute; lia|].
    exists built, pscale. split; [exact Hl|]. split; [exact Hg|]. split; [exact Hlen|].
    destruct (Hval 0 F32.one eq_refl eq_refl) as (y0 & Hy0 & Hs0 & Hq0).
    destruct (Hval 1 F32.half eq_refl eq_refl) as (y1 & Hy1 & Hs1 & _).
    destruct (Hval 2 F32.min_subnormal eq_refl eq_refl) as (y2 & Hy2 & Hs2 & _).
    vm_compute in Hs0, Hs1, Hs2. subst y0 y1 y2.
    split; [exact Hy0|]. split; [exact Hy1|]. split; [exact Hy2|].
    destruct (Hq0 _ eq_refl eq_refl) as (p & Hp & Heq).
    exists (S754_finite false 8388608 (-24)), p.
    split; [exact Hy0|]. split; [exact Hp|].
    rewrite Heq. reflexivity.
Defined.

Lemma C7_viewport_shortcut_witness :
  (isValid Scene.reader = true
   ∧ attr_valid (GetPointsAttr (m_usdPointsForRead Scene.reader)) = true)
  ∧ (attributes_read (trace (Scene.refine Scene.reader (Some true)))
       = [UsdGeomTokens.points]
     ∧ lists_before_primvars (trace (Scene.refine Scene.reader (Some true))) = []
     ∧ added_primitives (trace (Scene.refine Scene.reader (Some true)))
       = [GT_PrimPointMesh
            [("P", GusdGT_VtArray (usdPoints_read Scene.reader) GT_TYPE_POINT)] []])
  ∧ attributes_read (trace (Scene.refine Scene.reader (Some false)))
    = ["points"; "normals"; "velocities"; "widths"]
  ∧ ∃ built,
      lists_before_primvars (trace (Scene.refine Scene.reader (Some false))) = [built]
      ∧ getNames built = ["P"; "v"; "pscale"]
      ∧ get built "pscale"
        = Some (GT_Real32Array
                  [S754_finite false 8388608 (-24); S754_finite false 8388608 (-25);
                   S754_zero false] 1).
Proof.
  split; [split; reflexivity|].
  split.
  - apply (C7_viewport_shortcut Scene.useViewportLOD Scene.loadPrimvars
             Scene.reader (Some true) eq_refl eq_refl).
    reflexivity.
  - destruct (C7_viewport_shortcut Scene.useViewportLOD Scene.loadPrimvars
                Scene.reader (Some false) eq_refl eq_refl) as [_ Hfull].
    destruct (Hfull eq_refl) as (Hread & built & _ & Hl & _ & Hbuilt & _).
    split; [exact Hread|]. exists built. split; [exact Hl|].
    cbv zeta in Hbuilt. rewrite Hbuilt. split; reflexivity.
Defined.

Lemma C2_scale_back_of_pscale_witness :
  schema_valid (m_usdPointsForWrite Scene.writer) = true
  ∧ ∃ owner houAttr,
      updates_of UsdGeomTokens.widths
        (trace (Scene.updateFromGTPrim Scene.writer Scene.with_pscale tt
                  (Scene.context ONE_FILE "default" false) tt))
        = [(owner, "widths", houAttr, TimeSample 1)]
      ∧ houAttr
        = Some (GT_Real32Array
                  [S754_finite false 8388608 (-23); S754_finite false 8388608 (-22)] 1)
      ∧ ∃ d y p, houAttr = Some (GT_Real32Array d 1) ∧ d !! 0 = Some y
                 ∧ Binary32.value y = Some p ∧ Qeq p 1.
Proof.
  split; [reflexivity|].
  destruct (C2_scale_back_of_pscale (fun p => p) Scene.computeTransform
              Scene.getExtentsArray Scene.s_ownerToUsdInterp Scene.base_updateFromGTPrim
              Scene.writer Scene.with_pscale tt (Scene.context ONE_FILE "default" false) tt
              eq_refl)
    as (owner & houAttr & Hupd & _ & Hpscale & _).
  exists owner, houAttr. split; [exact Hupd|].
  destruct (Hpscale (Scene.scalars [F32.half; F32.one]) eq_refl eq_refl) as [Hone _].
  destruct (Hone eq_refl) as (d & -> & Hlen & _ & Hval).
  destruct (Hval 0 F32.half eq_refl eq_refl) as (y0 & Hy0 & Hs0 & Hq0).
  destruct (Hval 1 F32.one eq_refl eq_refl) as (y1 & Hy1 & Hs1 & _).
  vm_compute in Hs0, Hs1. subst y0 y1.
  destruct d as [|d0 [|d1 [|d2 d]]]; try discriminate Hlen.
  injection Hy0 as ->. injection Hy1 as ->.
  split; [reflexivity|].
  destruct (Hq0 _ eq_refl eq_refl) as (p & Hp & Heq).
  eexists _, _, p. split; [reflexivity|]. split; [reflexivity|]. split; [exact Hp|].
  rewrite Heq. reflexivity.
Defined.

(** C3 fails on velocities that are authored but have no value at the
    wrapper's time, next to normals that have enough values.  The
    velocities block fetches into the buffer that the normals block filled;
    the fetch fails and leaves the buffer, so the block sees as many values
    as there are normals: it emits no diagnostic for the velocities and
    binds [v] to the normals' values in the primitive that [refine] adds.
    The widths, in the same state, are reported with 0 values and left
    out. *)
Theorem C3_unreadable_velocities_not_dropped :
  is_authored (m_usdPointsForRead Cases.gappy_reader) UsdGeomTokens.velocities = true
  ∧ attr_value (GetVelocitiesAttr (m_usdPointsForRead Cases.gappy_reader))
      (m_time Cases.gappy_reader) = None
  ∧ length (usdPoints_read Cases.gappy_reader) = 2
  ∧ result (Scene.refine Cases.gappy_reader None) = true
  ∧ warnings (trace (Scene.refine Cases.gappy_reader None))
    = [(not_enough "widths", [ArgText "/gappy"; ArgSize 2; ArgSize 0])]
  ∧ added_primitives (trace (Scene.refine Cases.gappy_reader None))
    = [GT_PrimPointMesh
         [("P", GusdGT_VtArray (usdPoints_read Cases.gappy_reader) GT_TYPE_POINT);
          ("N", GusdGT_VtArray Cases.normals2 GT_TYPE_NORMAL);
          ("v", GusdGT_VtArray Cases.normals2 GT_TYPE_VECTOR)] []].
Proof. repeat split; reflexivity. Qed.


